(** * Conversation-memory subsystem of MCP-files-teams

    A shallow embedding of [src/memory-extension.ts] (the class
    [ChromaMemoryManager]), [src/lib/request-context.ts] and the REST
    provisioning client [ChromaRest], followed by the properties of the
    memory subsystem.

    Conventions of the embedding.
    - A JavaScript string is a [string]; its [length] counts code units.
      The code units are those below 256, on which [toLowerCase] folds
      the letters A to Z and the capitals of the Latin-1 supplement.
    - A JavaScript integer number (a timestamp, a limit, an HTTP status)
      is a [Z]; a vector distance is a [Q].
    - An optional string ([string | undefined | null]) is an
      [option string]; the operator [||] takes the empty string for
      falsy, as JavaScript does.
    - [async] functions are run to completion: a call is a function
      from the state before to the result and the state after.  A
      rejected promise or a thrown exception is [Thrown].
    - The memory directory is a tree of two levels on a POSIX host.
      [path.join (memoryDir, a, b)] is the entry [b] of the directory
      [a] when [a] and [b] are single path components
      ([Fs.component]); a name with a separator or a dot segment leads
      elsewhere, and the properties that depend on where a path leads
      assume components.
    - The text of a session file is represented by what [JSON.parse]
      makes of it; [JSON.stringify] writes a text that parses back to
      the value written. *)

From Stdlib Require Import String Ascii List ZArith QArith Bool Lia.
From Stdlib Require Import DecimalString.
Import ListNotations.

Local Open Scope list_scope.
Local Open Scope string_scope.
Local Open Scope Z_scope.

Set Implicit Arguments.

(** ** JavaScript values *)

Module Js.

(** The result of an expression that may throw. *)
Inductive exc (A : Type) : Type :=
| Ret (a : A)
| Thrown.
Arguments Ret {A} a.
Arguments Thrown {A}.

(** Truthiness of an optional string: [undefined], [null] and the
    empty string are falsy. *)
Definition truthy (s : option string) : bool :=
  match s with
  | Some (String _ _) => true
  | _ => false
  end.

(** [a || b] on optional strings. *)
Definition or_else (a b : option string) : option string :=
  if truthy a then a else b.

(** [a || 'literal']: the chain ends in a string literal. *)
Definition or_lit (a : option string) (lit : string) : string :=
  match a with
  | Some (String c s) => String c s
  | _ => lit
  end.

(** [s.includes (q)] *)
Fixpoint includes (q s : string) : bool :=
  String.prefix q s ||
  match s with
  | EmptyString => false
  | String _ s' => includes q s'
  end.

(** [s.endsWith (suffix)] *)
Fixpoint endsWith (suffix s : string) : bool :=
  String.eqb suffix s ||
  match s with
  | EmptyString => false
  | String _ s' => endsWith suffix s'
  end.

Fixpoint drop (n : nat) (s : string) : string :=
  match n, s with
  | O, _ => s
  | S n', String _ s' => drop n' s'
  | S _, EmptyString => EmptyString
  end.

(** [s.replace (pat, rep)] with a string pattern: the first
    occurrence only. *)
Fixpoint replace (pat rep s : string) : string :=
  if String.prefix pat s then rep ++ drop (String.length pat) s
  else match s with
       | EmptyString => EmptyString
       | String c s' => String c (replace pat rep s')
       end.

Definition map_chars (f : ascii -> ascii) (s : string) : string :=
  string_of_list_ascii (map f (list_ascii_of_string s)).

Definition in_range (lo hi : N) (c : ascii) : bool :=
  (lo <=? N_of_ascii c)%N && (N_of_ascii c <=? hi)%N.

Definition is_upper : ascii -> bool := in_range 65 90.
Definition is_lower : ascii -> bool := in_range 97 122.
Definition is_digit : ascii -> bool := in_range 48 57.

(** The capital letters of the Latin-1 supplement: U+00C0 to U+00DE
    without the multiplication sign U+00D7. *)
Definition is_upper_latin1 (c : ascii) : bool :=
  in_range 192 222 c && negb (N_of_ascii c =? 215)%N.

Definition lower_char (c : ascii) : ascii :=
  if is_upper c || is_upper_latin1 c
  then ascii_of_N (N_of_ascii c + 32)
  else c.

(** [s.toLowerCase ()] *)
Definition toLowerCase : string -> string := map_chars lower_char.

(** The character class [a-zA-Z0-9._-] of the directory-name
    sanitiser. *)
Definition safe_char (c : ascii) : bool :=
  is_lower c || is_upper c || is_digit c ||
  Ascii.eqb c "." || Ascii.eqb c "_" || Ascii.eqb c "-".

(** [s.replace (/[^a-zA-Z0-9._-]/g, '_')] *)
Definition sanitize : string -> string :=
  map_chars (fun c => if safe_char c then c else "_"%char).

(** [arr.join (sep)] *)
Definition join (sep : string) (l : list string) : string :=
  String.concat sep l.

(** Number to string inside a template literal, for integers. *)
Definition num_to_string (z : Z) : string :=
  NilZero.string_of_int (Z.to_int z).

(** [arr.slice (0, e)]: a negative end counts from the length. *)
Definition slice0 (A : Type) (l : list A) (e : Z) : list A :=
  if e <? 0
  then firstn (Z.to_nat (Z.max (Z.of_nat (List.length l) + e) 0)) l
  else firstn (Z.to_nat e) l.

(** A parameter with a default value: [limit: number = 5]. *)
Definition default (A : Type) (d : A) (o : option A) : A :=
  match o with
  | Some a => a
  | None => d
  end.

End Js.

Import Js.

(** ** The record model *)

Inductive KnowledgeSourceClass : Type :=
| USER_PROVIDED
| ENGINEER_ADDED
| SYSTEM_GENERATED
| EXTERNAL_API
| DOCUMENT_PARSED.

Inductive Visibility : Type :=
| Private
| Team
| Public.

Definition visibility_text (v : Visibility) : string :=
  match v with
  | Private => "private"
  | Team => "team"
  | Public => "public"
  end.

(** [interface ConversationMemory] *)
Record ConversationMemory : Type := mkMemory {
  sessionId : string;
  timestamp : Z;
  userMessage : string;
  assistantResponse : string;
  context : list string;
  tags : list string;
  source : option KnowledgeSourceClass;
  userId : option string;
  teamId : option string;
  visibility : option Visibility;
  projectId : option string;
  domain : option string
}.

(** The spread [{ ...memory, userId, teamId, visibility }]. *)
Definition with_owner (memory : ConversationMemory)
    (u t : string) (v : Visibility) : ConversationMemory :=
  {| sessionId := sessionId memory;
     timestamp := timestamp memory;
     userMessage := userMessage memory;
     assistantResponse := assistantResponse memory;
     context := context memory;
     tags := tags memory;
     source := source memory;
     userId := Some u;
     teamId := Some t;
     visibility := Some v;
     projectId := projectId memory;
     domain := domain memory |}.

(** The variables of [process.env] that the memory manager reads. *)
Record Env : Type := mkEnv {
  MCP_USER_ID : option string;
  MCP_TEAM_ID : option string;
  MCP_DISABLE_JSON : option string;
  MCP_PRIVATE_JSON_ONLY : option string;
  MCP_PROJECT_ID : option string
}.

(** ** Request scope context ([src/lib/request-context.ts]) *)

Module RequestContext.

(** The two module-level variables. *)
Record t : Type := mk {
  currentUserId : option string;
  currentTeamId : option string
}.

Definition initial : t := mk None None.

(** [set (userId, teamId)]: each is stored as [x || null]. *)
Definition set (u tm : option string) : t :=
  mk (or_else u None) (or_else tm None).

Definition clear : t := mk None None.

Definition userId (c : t) : option string := currentUserId c.
Definition teamId (c : t) : option string := currentTeamId c.

End RequestContext.

(** ** Objects and directories as association lists *)

Module Assoc.

Fixpoint lookup (A : Type) (name : string) (es : list (string * A))
  : option A :=
  match es with
  | [] => None
  | (n, a) :: rest => if String.eqb n name then Some a else lookup name rest
  end.

(** Replace the entry in place, or add it after the others. *)
Fixpoint put (A : Type) (name : string) (a : A) (es : list (string * A))
  : list (string * A) :=
  match es with
  | [] => [(name, a)]
  | (n, b) :: rest =>
      if String.eqb n name then (n, a) :: rest
      else (n, b) :: put name a rest
  end.

Fixpoint remove (A : Type) (name : string) (es : list (string * A))
  : list (string * A) :=
  match es with
  | [] => []
  | (n, b) :: rest =>
      if String.eqb n name then rest else (n, b) :: remove name rest
  end.

End Assoc.

Import Assoc.

(** ** The memory directory *)

Module Fs.

(** An element of a parsed array: a record object, or any other
    value (a number, [null], a string, ...), on which the loops over
    the records throw when they read [memory.tags.join] or
    [memory.context.join]. *)
Inductive elem : Type :=
| Rec (m : ConversationMemory)
| Junk.

(** What [JSON.parse] returns. *)
Inductive json : Type :=
| JArray (l : list elem)
| JString (s : string)
| JOther.

(** The text of a file: one that [JSON.parse] rejects, or one that
    parses. *)
Inductive text : Type :=
| Unparsable
| Parses (v : json).

(** An entry of a user directory: a file, or a folder (whose content
    no operation looks at). *)
Inductive entry : Type :=
| File (t : text)
| Folder.

(** An entry of the memory directory: a plain file, or a user
    directory. *)
Inductive node : Type :=
| Plain (t : text)
| Dir (entries : list (string * entry)).

(** The tree under [memoryDir] ([None]: the directory does not exist)
    and whether the device accepts writes. *)
Record Disk : Type := mkDisk {
  root : option (list (string * node));
  writable : bool
}.

Definition top (d : Disk) : list (string * node) :=
  match root d with
  | Some es => es
  | None => []
  end.

Definition set_top (d : Disk) (es : list (string * node)) : Disk :=
  mkDisk (Some es) (writable d).

Fixpoint has_char (c : ascii) (s : string) : bool :=
  match s with
  | EmptyString => false
  | String x s' => Ascii.eqb x c || has_char c s'
  end.

(** The length of a name in bytes, as the file system sees it: a code
    unit from 128 on takes two bytes in UTF-8. *)
Fixpoint byte_length (s : string) : nat :=
  match s with
  | EmptyString => O
  | String x s' =>
      ((if (N_of_ascii x <? 128)%N then 1 else 2) + byte_length s')%nat
  end.

(** A name that [path.join] leaves as one entry of the directory it is
    joined to, and that the file system takes: not empty, not one of the
    dot segments, without the separator and the NUL character, and no
    longer than 255 bytes.  The operations below are [path.join] and the
    call of [fs] on such names; for any other name the path leads out of
    the directory, below one of its entries, or nowhere. *)
Definition component (s : string) : bool :=
  negb (String.eqb s "") && negb (String.eqb s ".") &&
  negb (String.eqb s "..") &&
  negb (has_char "/" s) && negb (has_char (ascii_of_N 0) s) &&
  (byte_length s <=? 255)%nat.

(** [fs.mkdir (memoryDir, { recursive: true })] *)
Definition mkdir_root (d : Disk) : exc unit * Disk :=
  match root d with
  | Some _ => (Ret tt, d)
  | None => if writable d then (Ret tt, set_top d []) else (Thrown, d)
  end.

(** [fs.mkdir (path.join (memoryDir, u), { recursive: true })], for a
    component [u]. *)
Definition mkdir (d : Disk) (u : string) : exc unit * Disk :=
  match lookup u (top d) with
  | Some (Dir _) => (Ret tt, d)
  | Some (Plain _) => (Thrown, d)
  | None =>
      if writable d then (Ret tt, set_top d (top d ++ [(u, Dir [])])%list)
      else (Thrown, d)
  end.

(** [fs.access (path.join (memoryDir, u))], for a component [u]. *)
Definition access (d : Disk) (u : string) : exc unit :=
  match lookup u (top d) with
  | Some _ => Ret tt
  | None => Thrown
  end.

(** [fs.stat (path.join (memoryDir, u))], then [isDirectory ()]. *)
Definition stat_isDirectory (d : Disk) (u : string) : exc bool :=
  match lookup u (top d) with
  | Some (Dir _) => Ret true
  | Some (Plain _) => Ret false
  | None => Thrown
  end.

(** [fs.readdir (memoryDir)] *)
Definition readdir_root (d : Disk) : exc (list string) :=
  match root d with
  | Some es => Ret (map fst es)
  | None => Thrown
  end.

(** [fs.readdir (path.join (memoryDir, u))], for a component [u]. *)
Definition readdir (d : Disk) (u : string) : exc (list string) :=
  match lookup u (top d) with
  | Some (Dir es) => Ret (map fst es)
  | _ => Thrown
  end.

(** [fs.readFile (path.join (memoryDir, u, f), 'utf8')], for components
    [u] and [f]. *)
Definition readFile (d : Disk) (u f : string) : exc text :=
  match lookup u (top d) with
  | Some (Dir es) =>
      match lookup f es with
      | Some (File t) => Ret t
      | _ => Thrown
      end
  | _ => Thrown
  end.

(** [fs.writeFile (path.join (memoryDir, u, f), t)], for components
    [u] and [f]. *)
Definition writeFile (d : Disk) (u f : string) (t : text)
  : exc unit * Disk :=
  match lookup u (top d) with
  | Some (Dir es) =>
      match lookup f es with
      | Some Folder => (Thrown, d)
      | _ =>
          if writable d
          then (Ret tt, set_top d (put u (Dir (put f (File t) es)) (top d)))
          else (Thrown, d)
      end
  | _ => (Thrown, d)
  end.

(** [fs.unlink (path.join (memoryDir, f))], for a component [f]: a
    file directly under the memory directory. *)
Definition unlink_root (d : Disk) (f : string) : exc unit * Disk :=
  match lookup f (top d) with
  | Some (Plain _) =>
      if writable d then (Ret tt, set_top d (remove f (top d)))
      else (Thrown, d)
  | _ => (Thrown, d)
  end.

(** [existingData.push (memory)]: a method of arrays only. *)
Definition push (v : json) (memory : ConversationMemory) : exc json :=
  match v with
  | JArray l => Ret (JArray (l ++ [Rec memory])%list)
  | _ => Thrown
  end.

End Fs.

Import Fs.

(** ** The REST provisioning client ([ChromaRest]) *)

Module ChromaRest.

Record ChromaRestOptions : Type := mkOptions {
  baseUrl : string;
  opt_tenant : option string;
  opt_database : option string
}.

Record t : Type := mkRest {
  base : string;
  tenant : string;
  database : string
}.

Inductive Method : Type := GET | POST.

(** A request: the body of the provisioning calls is the object
    [{ name }]. *)
Record Request : Type := mkRequest {
  url : string;
  method : Method;
  body_name : option string
}.

(** A response: its status, and what [r.text ()] gives. *)
Record Response : Type := mkResponse {
  status : Z;
  text : exc string
}.

(** How a call ends: it returns, it throws its own [Error], or the
    rejection of [fetch] or of [r.text ()] goes through. *)
Inductive outcome : Type :=
| Done
| Error (message : string)
| Rejected.

(** [s.replace (/\/$/, '')]: one trailing slash is removed. *)
Fixpoint strip_slash (s : string) : string :=
  match s with
  | EmptyString => EmptyString
  | String c EmptyString => if Ascii.eqb c "/" then EmptyString else s
  | String c s' => String c (strip_slash s')
  end.

(** The constructor; [??] replaces [undefined] only. *)
Definition new (opts : ChromaRestOptions) : t :=
  mkRest (strip_slash (baseUrl opts))
         (default "default" (opt_tenant opts))
         (default "default" (opt_database opts)).

Definition td (c : t) (path : string) : string :=
  base c ++ "/api/v2/tenants/" ++ tenant c ++ "/databases/" ++
  database c ++ path.

(** [[200, 201, 409].includes (r.status)] *)
Definition accepted (st : Z) : bool :=
  existsb (Z.eqb st) [200; 201; 409].

Definition ensureCollection (c : t) (fetch : Request -> exc Response)
    (name : string) : outcome :=
  match fetch (mkRequest (td c "/collections") POST (Some name)) with
  | Thrown => Rejected
  | Ret r =>
      if negb (accepted (status r)) then
        match text r with
        | Thrown => Rejected
        | Ret t =>
            Error ("ensureCollection failed: " ++
                   num_to_string (status r) ++ " " ++ t)
        end
      else Done
  end.

(** *** The other calls of the client *)

(** How a call that returns a value ends. *)
Inductive fetched (A : Type) : Type :=
| Value (a : A)
| Fails (message : string)
| Rejects.
Arguments Value {A} a.
Arguments Fails {A} message.
Arguments Rejects {A}.

(** [fetch (base/api/v2/heartbeat)], then [r.status === 200]. *)
Definition heartbeat (c : t) (fetch : Request -> exc Response) : exc bool :=
  match fetch (mkRequest (base c ++ "/api/v2/heartbeat") GET None) with
  | Thrown => Thrown
  | Ret r => Ret (status r =? 200)
  end.

(** The response is awaited and not looked at. *)
Definition ensureTenant (c : t) (fetch : Request -> exc Response) : outcome :=
  match fetch (mkRequest (base c ++ "/api/v2/tenants") POST
                 (Some (tenant c))) with
  | Thrown => Rejected
  | Ret _ => Done
  end.

Definition ensureDatabase (c : t) (fetch : Request -> exc Response)
  : outcome :=
  match fetch (mkRequest (base c ++ "/api/v2/tenants/" ++ tenant c ++
                          "/databases")
                 POST (Some (database c))) with
  | Thrown => Rejected
  | Ret _ => Done
  end.

Definition hex_digit (n : N) : ascii :=
  ascii_of_N (if (n <? 10)%N then 48 + n else 55 + n).

(** The escape of one byte: a percent sign and two upper-case
    hexadecimal digits. *)
Definition percent (b : N) : string :=
  String "%" (String (hex_digit (b / 16))
                (String (hex_digit (b mod 16)) EmptyString)).

(** The characters [encodeURIComponent] leaves as they are. *)
Definition uri_unreserved (c : ascii) : bool :=
  is_lower c || is_upper c || is_digit c ||
  existsb (Ascii.eqb c) ["-"; "_"; "."; "!"; "~"; "*"; "'"; "("; ")"]%char.

(** One code unit below 256: itself, or the escapes of its UTF-8
    bytes (one byte below 128, else two). *)
Definition encode_unit (c : ascii) : string :=
  let n := N_of_ascii c in
  if uri_unreserved c then String c EmptyString
  else if (n <? 128)%N then percent n
  else percent (192 + n / 64) ++ percent (128 + n mod 64).

Fixpoint encodeURIComponent (s : string) : string :=
  match s with
  | EmptyString => EmptyString
  | String c s' => encode_unit c ++ encodeURIComponent s'
  end.

(** [getCollection (name)]; [json] stands for [r.json ()] on the text
    of the body. *)
Definition getCollection (A : Type) (c : t)
    (fetch : Request -> exc Response) (json : string -> exc A)
    (name : string) : fetched A :=
  match fetch (mkRequest (td c ("/collections/" ++ encodeURIComponent name))
                 GET None) with
  | Thrown => Rejects
  | Ret r =>
      if negb (status r =? 200)
      then Fails ("getCollection(" ++ name ++ ") -> " ++
                  num_to_string (status r))
      else match text r with
           | Thrown => Rejects
           | Ret t =>
               match json t with
               | Ret v => Value v
               | Thrown => Rejects
               end
           end
  end.

End ChromaRest.

(** ** The vector service *)

Module Chroma.

(** A metadata value: a string, a number, or (in the results of the
    keyword search only) an array of strings. *)
Inductive metaval : Type :=
| MStr (s : string)
| MNum (z : Z)
| MArr (l : list string).

Definition metaval_eqb (a b : metaval) : bool :=
  match a, b with
  | MStr x, MStr y => String.eqb x y
  | MNum x, MNum y => Z.eqb x y
  | _, _ => false
  end.

(** A metadata object; a key whose value is [undefined] is left
    out. *)
Definition metadata : Type := list (string * metaval).

Record item : Type := mkItem {
  id : string;
  document : string;
  meta : metadata
}.

(** A condition of a where-filter: equality, or [{ "$in": [...] }]. *)
Inductive cond : Type :=
| Equals (v : metaval)
| OneOf (vs : list metaval).

Definition where_filter : Type := list (string * cond).

Inductive call : Type :=
| GetCollection
| CreateCollection
| Add (e : item)
| Query (queryText : string) (nResults : Z) (w : where_filter).

(** One row of a query result. *)
Record row : Type := mkRow {
  row_document : string;
  row_metadata : metadata;
  row_distance : Q
}.

(** Modelled from the spec: the remote vector service, which is not
    part of the repository.  It holds at most the one collection the
    manager uses; [distance_of] stands for the distance between the
    embeddings of the query text and of a document; the call number
    [n] reaches the service when [up n] holds, and throws otherwise;
    [log] records the calls made. *)
Record Service : Type := mkService {
  stored : option (list item);
  distance_of : string -> string -> Q;
  up : nat -> bool;
  log : list call
}.

Definition reached (s : Service) : bool := up s (List.length (log s)).

Definition logged (s : Service) (c : call) : Service :=
  mkService (stored s) (distance_of s) (up s) (log s ++ [c])%list.

Definition set_stored (s : Service) (l : list item) : Service :=
  mkService (Some l) (distance_of s) (up s) (log s).

(** Modelled from the spec: the filter language of the service, scalar
    equality and inclusion.  A metadata object satisfies a filter when
    each key of the filter is present and meets its condition. *)
Definition holds (c : cond) (v : option metaval) : bool :=
  match v with
  | None => false
  | Some x =>
      match c with
      | Equals y => metaval_eqb x y
      | OneOf ys => existsb (metaval_eqb x) ys
      end
  end.

Definition matches (w : where_filter) (m : metadata) : bool :=
  forallb (fun kc => holds (snd kc) (lookup (fst kc) m)) w.

Fixpoint insert_row (r : row) (rs : list row) : list row :=
  match rs with
  | [] => [r]
  | r' :: rest =>
      if Qle_bool (row_distance r) (row_distance r') then r :: rs
      else r' :: insert_row r rest
  end.

(** Rows by increasing distance. *)
Definition rank (rs : list row) : list row :=
  fold_right insert_row [] rs.

(** Modelled from the spec: [client.getCollection] throws when the
    service is out of reach or has no such collection. *)
Definition getCollection (s : Service) : exc unit * Service :=
  let s' := logged s GetCollection in
  match reached s, stored s with
  | true, Some _ => (Ret tt, s')
  | _, _ => (Thrown, s')
  end.

(** Modelled from the spec: [client.createCollection] creates the
    collection, empty, and throws when the service is out of reach or
    the collection exists. *)
Definition createCollection (s : Service) : exc unit * Service :=
  let s' := logged s CreateCollection in
  match reached s, stored s with
  | true, None => (Ret tt, set_stored s' [])
  | _, _ => (Thrown, s')
  end.

(** Modelled from the spec: [collection.add] inserts one item; a second
    item with the same id is accepted. *)
Definition add (s : Service) (e : item) : exc unit * Service :=
  let s' := logged s (Add e) in
  match reached s, stored s with
  | true, Some l => (Ret tt, set_stored s' (l ++ [e])%list)
  | _, _ => (Thrown, s')
  end.

(** Modelled from the spec: [collection.query] returns the items that
    satisfy the filter, nearest first, at most [nResults] of them. *)
Definition query (s : Service) (queryText : string) (nResults : Z)
    (w : where_filter) : exc (list row) * Service :=
  let s' := logged s (Query queryText nResults w) in
  match reached s, stored s with
  | true, Some l =>
      (Ret (firstn (Z.to_nat nResults)
              (rank (map (fun e => mkRow (document e) (meta e)
                                     (distance_of s queryText (document e)))
                         (filter (fun e => matches w (meta e)) l)))),
       s')
  | _, _ => (Thrown, s')
  end.

End Chroma.

(** ** The memory manager ([ChromaMemoryManager]) *)

Inductive ChromaClient : Type := Client.
Inductive Collection : Type := Handle.

(** The fields of the class, but [memoryDir], which is fixed. *)
Record Manager : Type := mkManager {
  client : option ChromaClient;
  collection : option Collection;
  initialized : bool
}.

(** What the manager acts on: the memory directory, the vector
    service, the request scope context and the environment. *)
Record World : Type := mkWorld {
  disk : Disk;
  chroma : Chroma.Service;
  rc : RequestContext.t;
  env : Env
}.

Definition set_disk (w : World) (d : Disk) : World :=
  mkWorld d (chroma w) (rc w) (env w).

Definition set_chroma (w : World) (s : Chroma.Service) : World :=
  mkWorld (disk w) s (rc w) (env w).

(** [interface MemorySearchResult] *)
Record MemorySearchResult : Type := mkResult {
  content : string;
  metadata : Chroma.metadata;
  distance : Q
}.

(** Which of the two searches answered; the code logs it. *)
Inductive Path : Type :=
| VectorSearch
| JsonFallback.

Definition nl : string := String (ascii_of_N 10) EmptyString.

(** The constructor: building the client may throw, which leaves
    [client] null; [collection] is not assigned. *)
Definition new_manager (client_built : bool) : Manager :=
  mkManager (if client_built then Some Client else None) None false.

(** The state the handler of [initialize] leaves. *)
Definition json_only : Manager := mkManager None None true.

(** The provisioning inside [initialize]: get the collection, and
    create it when that throws. *)
Definition provision (s : Chroma.Service) : exc Collection * Chroma.Service :=
  match Chroma.getCollection s with
  | (Ret _, s1) => (Ret Handle, s1)
  | (Thrown, s1) =>
      match Chroma.createCollection s1 with
      | (Ret _, s2) => (Ret Handle, s2)
      | (Thrown, s2) => (Thrown, s2)
      end
  end.

Definition initialize (mgr : Manager) (w : World) : Manager * World :=
  if initialized mgr then (mgr, w)
  else
    match mkdir_root (disk w) with
    | (Thrown, d1) => (json_only, set_disk w d1)
    | (Ret _, d1) =>
        match client mgr with
        | Some c =>
            match provision (chroma w) with
            | (Ret h, s1) =>
                (mkManager (Some c) (Some h) true,
                 set_chroma (set_disk w d1) s1)
            | (Thrown, s1) => (json_only, set_chroma (set_disk w d1) s1)
            end
        | None =>
            (mkManager None (collection mgr) true, set_disk w d1)
        end
    end.

Definition isAvailable (mgr : Manager) : bool :=
  initialized mgr &&
  match client mgr, collection mgr with
  | Some _, Some _ => true
  | _, _ => false
  end.

Definition session_file (sid : string) : string := sid ++ ".json".

(** The name of the per-user directory of a write. *)
Definition userSafe_of (w : World) (memory : ConversationMemory) : string :=
  let rcUser := RequestContext.userId (rc w) in
  sanitize (or_lit (or_else (or_else (userId memory) rcUser)
                            (MCP_USER_ID (env w)))
                   "unknown-user").

Definition storeConversationToJson (w : World) (memory : ConversationMemory)
  : bool * World :=
  let userSafe := userSafe_of w memory in
  match mkdir (disk w) userSafe with
  | (Thrown, d1) => (false, set_disk w d1)
  | (Ret _, d1) =>
      let sessionFile := session_file (sessionId memory) in
      let existingData :=
        match readFile d1 userSafe sessionFile with
        | Ret (Parses v) => v
        | _ => JArray []
        end in
      match push existingData memory with
      | Thrown => (false, set_disk w d1)
      | Ret data =>
          match writeFile d1 userSafe sessionFile (Parses data) with
          | (Ret _, d2) => (true, set_disk w d2)
          | (Thrown, d2) => (false, set_disk w d2)
          end
      end
  end.

(** The ownership resolution of [storeConversation]. *)
Definition resolve_userId (w : World) (memory : ConversationMemory) : string :=
  or_lit (or_else (or_else (RequestContext.userId (rc w))
                           (MCP_USER_ID (env w)))
                  (userId memory))
         "unknown-user".

Definition resolve_teamId (w : World) (memory : ConversationMemory) : string :=
  or_lit (or_else (or_else (RequestContext.teamId (rc w))
                           (MCP_TEAM_ID (env w)))
                  (teamId memory))
         "default-team".

Definition disableJson (e : Env) : bool :=
  String.eqb (toLowerCase (or_lit (MCP_DISABLE_JSON e) "")) "true" ||
  match MCP_DISABLE_JSON e with
  | Some v => String.eqb v "1"
  | None => false
  end.

Definition jsonOnlyPrivate (e : Env) : bool :=
  String.eqb (or_lit (MCP_PRIVATE_JSON_ONLY e) "1") "1".

Definition is_private (v : Visibility) : bool :=
  match v with
  | Private => true
  | _ => false
  end.

Definition optional (key : string) (v : option string) : Chroma.metadata :=
  if truthy v then [(key, Chroma.MStr (or_lit v ""))] else [].

Definition item_id (memory : ConversationMemory) : string :=
  sessionId memory ++ "_" ++ num_to_string (timestamp memory).

Definition item_document (memory : ConversationMemory) : string :=
  "User: " ++ userMessage memory ++ nl ++
  "Assistant: " ++ assistantResponse memory.

(** The six keys that both indexing paths write. *)
Definition base_metadata (memory : ConversationMemory) : Chroma.metadata :=
  [ ("sessionId", Chroma.MStr (sessionId memory));
    ("timestamp", Chroma.MNum (timestamp memory));
    ("userMessage", Chroma.MStr (userMessage memory));
    ("assistantResponse", Chroma.MStr (assistantResponse memory));
    ("context", Chroma.MStr (join ", " (context memory)));
    ("tags", Chroma.MStr (join ", " (tags memory))) ].

(** The metadata object of [storeConversation]. *)
Definition store_metadata (e : Env) (memory : ConversationMemory)
    (u t : string) (v : Visibility) : Chroma.metadata :=
  (base_metadata memory ++
   [ ("userId", Chroma.MStr u);
     ("teamId", Chroma.MStr t);
     ("visibility", Chroma.MStr (visibility_text v)) ] ++
   optional "projectId" (or_else (projectId memory) (MCP_PROJECT_ID e)) ++
   optional "domain" (domain memory))%list.

Definition storeConversation (mgr : Manager) (w : World)
    (memory : ConversationMemory) : bool * Manager * World :=
  let '(mgr, w) := if initialized mgr then (mgr, w) else initialize mgr w in
  let userId := resolve_userId w memory in
  let teamId := resolve_teamId w memory in
  let visibility := default Team (visibility memory) in
  let w1 :=
    if disableJson (env w) then w
    else snd (storeConversationToJson w
                (with_owner memory userId teamId visibility)) in
  if is_private visibility && jsonOnlyPrivate (env w) then (true, mgr, w1)
  else
    match client mgr, collection mgr with
    | Some _, Some _ =>
        match Chroma.add (chroma w1)
                (Chroma.mkItem (item_id memory) (item_document memory)
                   (store_metadata (env w) memory userId teamId visibility))
        with
        | (Ret _, s1) => (true, mgr, set_chroma w1 s1)
        | (Thrown, s1) => (true, mgr, set_chroma w1 s1)
        end
    | _, _ => (true, mgr, w1)
    end.

(** *** Search *)

(** The where-filter of the vector query. *)
Definition search_where (e : Env) (sessionId : option string)
  : Chroma.where_filter :=
  ((if truthy sessionId
    then [("sessionId", Chroma.Equals (Chroma.MStr (or_lit sessionId "")))]
    else []) ++
   (if truthy (MCP_TEAM_ID e)
    then [("teamId", Chroma.Equals (Chroma.MStr (or_lit (MCP_TEAM_ID e) "")))]
    else []) ++
   [("visibility",
     Chroma.OneOf [Chroma.MStr "team"; Chroma.MStr "public"])])%list.

Definition of_row (r : Chroma.row) : MemorySearchResult :=
  mkResult (Chroma.row_document r) (Chroma.row_metadata r)
           (Chroma.row_distance r).

Definition searchText (memory : ConversationMemory) : string :=
  toLowerCase (userMessage memory ++ " " ++ assistantResponse memory ++
               " " ++ join " " (tags memory)).

(** The result pushed for a matching record. *)
Definition json_result (memory : ConversationMemory) : MemorySearchResult :=
  mkResult (item_document memory)
    [ ("sessionId", Chroma.MStr (sessionId memory));
      ("timestamp", Chroma.MNum (timestamp memory));
      ("tags", Chroma.MArr (tags memory));
      ("context", Chroma.MArr (context memory)) ]
    (1 # 2).

(** The loop over the elements of one file.  An element that is not a
    record throws; the handler around the file then goes on to the next
    file, and what was pushed before stays. *)
Fixpoint scan_memories (queryLower : string) (memories : list elem)
    (results : list MemorySearchResult) : list MemorySearchResult :=
  match memories with
  | [] => results
  | Junk :: _ => results
  | Rec memory :: rest =>
      scan_memories queryLower rest
        (if includes queryLower (searchText memory)
         then (results ++ [json_result memory])%list
         else results)
  end.

(** The body of the loop over the files. *)
Definition scan_file (d : Disk) (userDir queryLower : string)
    (results : list MemorySearchResult) (file : string)
  : list MemorySearchResult :=
  if negb (endsWith ".json" file) then results
  else
    match readFile d userDir file with
    | Ret (Parses (JArray memories)) =>
        scan_memories queryLower memories results
    | _ => results
    end.

(** The user directory of the reading operations. *)
Definition reader_userId (w : World) : string :=
  or_lit (or_else (RequestContext.userId (rc w)) (MCP_USER_ID (env w)))
         "unknown-user".

Definition searchJsonMemories (w : World) (query : string)
    (sessionId : option string) (limit : option Z)
  : list MemorySearchResult :=
  let queryLower := toLowerCase query in
  let userDir := reader_userId w in
  match access (disk w) userDir with
  | Thrown => []
  | Ret _ =>
      match (if truthy sessionId
             then Ret [session_file (or_lit sessionId "")]
             else readdir (disk w) userDir) with
      | Thrown => []
      | Ret files =>
          slice0 (fold_left (scan_file (disk w) userDir queryLower) files [])
                 (default 5 limit)
      end
  end.

Definition searchRelevantMemories (mgr : Manager) (w : World)
    (query : string) (sessionId : option string) (limit : option Z)
  : Path * list MemorySearchResult * World :=
  match collection mgr, client mgr with
  | Some _, Some _ =>
      match Chroma.query (chroma w) query (default 5 limit)
                         (search_where (env w) sessionId) with
      | (Ret (r :: rows), s1) =>
          (VectorSearch, map of_row (r :: rows), set_chroma w s1)
      | (_, s1) =>
          (JsonFallback,
           searchJsonMemories (set_chroma w s1) query sessionId limit,
           set_chroma w s1)
      end
  | _, _ =>
      (JsonFallback, searchJsonMemories w query sessionId limit, w)
  end.

(** *** Sessions *)

Definition listSessions (w : World) : list string :=
  match readdir (disk w) (reader_userId w) with
  | Ret files =>
      map (fun file => replace ".json" "" file)
          (filter (endsWith ".json") files)
  | Thrown => []
  end.

Definition deleteSession (w : World) (sessionId : string) : bool * World :=
  match unlink_root (disk w) (session_file sessionId) with
  | (Ret _, d1) => (true, set_disk w d1)
  | (Thrown, d1) => (false, set_disk w d1)
  end.

(** *** Context prompt *)

Definition prompt_header : string :=
  "## Relevant Context from Previous Conversations:" ++ nl ++ nl.

(** [memory.metadata.sessionId || 'Session'] inside the template. *)
Definition session_label (m : Chroma.metadata) : string :=
  match lookup "sessionId" m with
  | Some (Chroma.MStr s) => or_lit (Some s) "Session"
  | Some (Chroma.MNum z) => if z =? 0 then "Session" else num_to_string z
  | Some (Chroma.MArr l) => join "," l
  | None => "Session"
  end.

Definition addition (memory : MemorySearchResult) : string :=
  "### " ++ session_label (metadata memory) ++ nl ++
  content memory ++ nl ++ nl.

Definition len (s : string) : Z := Z.of_nat (String.length s).

(** The loop of [buildContextPrompt], with its [break]. *)
Fixpoint append_blocks (maxLength : Z) (memories : list MemorySearchResult)
    (context : string) (currentLength : Z) : string :=
  match memories with
  | [] => context
  | memory :: rest =>
      if currentLength + len (addition memory) >? maxLength then context
      else append_blocks maxLength rest (context ++ addition memory)
                         (currentLength + len (addition memory))
  end.

Definition buildContextPrompt (mgr : Manager) (w : World)
    (currentMessage : string) (sessionId : option string)
    (maxLength : option Z) : string * World :=
  let '(_, relevantMemories, w1) :=
    searchRelevantMemories mgr w currentMessage sessionId (Some 3) in
  match relevantMemories with
  | [] => ("", w1)
  | _ =>
      (append_blocks (default 2000 maxLength) relevantMemories
                     prompt_header (len prompt_header),
       w1)
  end.

(** *** Bulk reload *)

(** The metadata object of [reloadAllMemoriesFromJson]. *)
Definition reload_metadata (memory : ConversationMemory) : Chroma.metadata :=
  base_metadata memory.

(** The loop over the records of one file: the service after it, the
    count of loaded records, and whether it threw. *)
Fixpoint reload_memories (s : Chroma.Service) (loaded : Z)
    (memories : list elem) : exc unit * Chroma.Service * Z :=
  match memories with
  | [] => (Ret tt, s, loaded)
  | Junk :: _ => (Thrown, s, loaded)
  | Rec memory :: rest =>
      match Chroma.add s (Chroma.mkItem (item_id memory)
                            (item_document memory)
                            (reload_metadata memory)) with
      | (Ret _, s1) => reload_memories s1 (loaded + 1) rest
      | (Thrown, s1) => (Thrown, s1, loaded)
      end
  end.

(** The body of the loop over the session files; a file is named by
    its user directory and its own name. *)
Definition reload_file (d : Disk) (st : Chroma.Service * Z * Z)
    (filePath : string * string) : Chroma.Service * Z * Z :=
  let '(s, loaded, errors) := st in
  match readFile d (fst filePath) (snd filePath) with
  | Ret (Parses (JArray memories)) =>
      match reload_memories s loaded memories with
      | (Ret _, s1, loaded1) => (s1, loaded1, errors)
      | (Thrown, s1, loaded1) => (s1, loaded1, errors + 1)
      end
  | Ret (Parses (JString EmptyString)) => (s, loaded, errors)
  | _ => (s, loaded, errors + 1)
  end.

(** The session files of one entry of the memory directory. *)
Definition user_session_files (d : Disk) (user : string)
  : list (string * string) :=
  match stat_isDirectory d user with
  | Ret true =>
      match readdir d user with
      | Ret files => map (pair user) (filter (endsWith ".json") files)
      | Thrown => []
      end
  | _ => []
  end.

Definition sessionFiles (d : Disk) : list (string * string) :=
  match readdir_root d with
  | Ret users => flat_map (user_session_files d) users
  | Thrown => []
  end.

Definition reloadAllMemoriesFromJson (mgr : Manager) (w : World)
  : (Z * Z) * World :=
  match collection mgr with
  | None => ((0, 0), w)
  | Some _ =>
      let '(s, loaded, errors) :=
        fold_left (reload_file (disk w)) (sessionFiles (disk w))
                  (chroma w, 0, 0) in
      ((loaded, errors), set_chroma w s)
  end.

(** ** The properties, in the words of the specification *)

Module Spec.

(** Ownership precedence: the first candidate that is set, else the
    sentinel. *)
Fixpoint first_set (candidates : list (option string)) (sentinel : string)
  : string :=
  match candidates with
  | [] => sentinel
  | Some (String c s) :: _ => String c s
  | _ :: rest => first_set rest sentinel
  end.

Definition owner_userId (w : World) (memory : ConversationMemory) : string :=
  first_set [ RequestContext.userId (rc w); MCP_USER_ID (env w);
              userId memory ] "unknown-user".

Definition owner_teamId (w : World) (memory : ConversationMemory) : string :=
  first_set [ RequestContext.teamId (rc w); MCP_TEAM_ID (env w);
              teamId memory ] "default-team".

(** The team of the active context, as the store operation resolves
    it. *)
Definition active_teamId (w : World) : option string :=
  or_else (RequestContext.teamId (rc w)) (MCP_TEAM_ID (env w)).

(** The records a scan reads from a parsed array: those before the
    first element that is not a record; all of them in a file the
    store operation wrote. *)
Fixpoint readable (l : list elem) : list ConversationMemory :=
  match l with
  | Rec m :: rest => m :: readable rest
  | _ => []
  end.

(** The elements of a session file; none when it is missing or does
    not hold an array. *)
Definition previous (d : Disk) (u f : string) : list elem :=
  match readFile d u f with
  | Ret (Parses (JArray l)) => l
  | _ => []
  end.

(** [scan (userId, sessionId)] of the durable log. *)
Definition scan (d : Disk) (u sid : string) : list ConversationMemory :=
  readable (previous d u (session_file sid)).

Definition file_records (d : Disk) (u f : string)
  : list ConversationMemory :=
  if endsWith ".json" f then readable (previous d u f) else [].

(** The user of the active context: the one of the request scope,
    else the environment default, else the sentinel. *)
Definition active_user (w : World) : string :=
  first_set [ RequestContext.userId (rc w); MCP_USER_ID (env w) ]
            "unknown-user".

(** The files of the keyword fallback: the file of the named session,
    else every entry of the directory of the active user. *)
Definition scanned_files (w : World) (sessionId : option string)
  : list string :=
  match sessionId with
  | Some (String c s) => [String c s ++ ".json"]
  | _ =>
      match readdir (disk w) (active_user w) with
      | Ret files => files
      | Thrown => []
      end
  end.

Definition scanned_records (w : World) (sessionId : option string)
  : list ConversationMemory :=
  flat_map (file_records (disk w) (active_user w))
           (scanned_files w sessionId).

(** The text of a record the query is matched against: the user
    message, the assistant response and the tags, with a space between
    them. *)
Definition matched_text (m : ConversationMemory) : string :=
  userMessage m ++ " " ++ assistantResponse m ++ " " ++
  String.concat " " (tags m).

Definition keyword_hit (query : string) (m : ConversationMemory) : bool :=
  includes (toLowerCase query) (toLowerCase (matched_text m)).

(** The placeholder distance of a keyword hit. *)
Definition placeholder : Q := 1 # 2.

(** The result that stands for a record: its two texts as the content,
    its session, time, tags and context as the metadata, and the
    placeholder distance. *)
Definition fallback_result (m : ConversationMemory) : MemorySearchResult :=
  {| content := "User: " ++ userMessage m ++ nl ++
                "Assistant: " ++ assistantResponse m;
     metadata := [ ("sessionId", Chroma.MStr (sessionId m));
                   ("timestamp", Chroma.MNum (timestamp m));
                   ("tags", Chroma.MArr (tags m));
                   ("context", Chroma.MArr (context m)) ];
     distance := placeholder |}.

(** Truncation to a limit: the first [limit] elements; a negative limit
    leaves off the last [- limit] elements instead. *)
Definition truncate (A : Type) (limit : Z) (l : list A) : list A :=
  if 0 <=? limit then firstn (Z.to_nat limit) l
  else firstn (List.length l - Z.to_nat (- limit)) l.

(** The keyword fallback: the results of the matching records in scan
    order, truncated to the limit. *)
Definition keyword_search (w : World) (query : string)
    (sessionId : option string) (limit : Z) : list MemorySearchResult :=
  truncate limit
    (map fallback_result
         (filter (keyword_hit query) (scanned_records w sessionId))).

(** A session file the append can extend: the device accepts writes,
    nothing but a directory is in the place of the user directory, and
    the file is missing, unparsable or an array. *)
Definition appendable (d : Disk) (u f : string) : bool :=
  writable d &&
  match lookup u (top d) with
  | None => true
  | Some (Plain _) => false
  | Some (Dir es) =>
      match lookup f es with
      | None => true
      | Some (File Unparsable) => true
      | Some (File (Parses (JArray _))) => true
      | _ => false
      end
  end.

Definition items (s : Chroma.Service) : list Chroma.item :=
  default [] (Chroma.stored s).

(** An item as the reload builds it from a record. *)
Definition reloaded (e : Chroma.item) : Prop :=
  exists m,
    e = Chroma.mkItem (item_id m) (item_document m) (reload_metadata m).

Definition reload_keys : list string :=
  [ "sessionId"; "timestamp"; "userMessage"; "assistantResponse";
    "context"; "tags" ].

End Spec.

(** ** Sample data *)

Module Sample.

Definition record (sid : string) (ts : Z) (um ar : string)
    (tgs : list string) (v : option Visibility) : ConversationMemory :=
  mkMemory sid ts um ar [] tgs None None None v None None.

Definition nginx : ConversationMemory :=
  record "s1" 1700000000000 "fix nginx config"
         "edit /etc/nginx/nginx.conf" ["configuration"] (Some Team).

Definition docker : ConversationMemory :=
  record "s1" 1700000000500 "How do I run Docker here?"
         "Use the compose file." ["docker"] None.

Definition diary : ConversationMemory :=
  record "s2" 1700000001000 "my nginx password" "noted"
         ["security"] (Some Private).

Definition env_alice : Env :=
  mkEnv (Some "alice") None None None None.

(** Private records are indexed too. *)
Definition env_index_all : Env :=
  mkEnv (Some "alice") (Some "core") None (Some "0") None.

Definition service (reachable : bool) : Chroma.Service :=
  Chroma.mkService None (fun _ _ => 1 # 4) (fun _ => reachable) [].

Definition fresh (e : Env) (reachable : bool) : World :=
  mkWorld (mkDisk None true) (service reachable) RequestContext.initial e.

Definition store_all (mgr : Manager) (w : World)
    (ms : list ConversationMemory) : Manager * World :=
  fold_left (fun st m =>
               let '(_, mgr', w') := storeConversation (fst st) (snd st) m in
               (mgr', w'))
            ms (mgr, w).

(** Alice stored one record; the vector service is out of reach. *)
Definition alice_json : Manager * World :=
  store_all (new_manager true) (fresh env_alice false) [nginx].

(** Two records stored while the vector service answers. *)
Definition indexed : Manager * World :=
  store_all (new_manager true) (fresh env_index_all true) [nginx; diary].

(** The directory of alice and an empty session file exist, on a
    device that accepts no writes. *)
Definition read_only : World :=
  mkWorld (mkDisk (Some [("alice",
                          Dir [("s1.json", File (Parses (JArray [])))])])
                  false)
          (service false) RequestContext.initial env_alice.

(** The session file of alice holds the JSON value [null]. *)
Definition null_file : World :=
  mkWorld (mkDisk (Some [("alice", Dir [("s1.json", File (Parses JOther))])])
                  true)
          (service false) RequestContext.initial env_alice.

(** The session file of alice holds an array whose one element is
    not a record. *)
Definition junk_file : World :=
  mkWorld (mkDisk (Some [("alice",
                          Dir [("s1.json", File (Parses (JArray [Junk])))])])
                  true)
          (service false) RequestContext.initial env_alice.

(** A request scope is set over the environment default, and the
    record names a third user. *)
Definition scoped : World :=
  mkWorld (mkDisk None true) (service false)
          (RequestContext.set (Some "bob@corp.com") (Some "ops"))
          (mkEnv (Some "alice") (Some "core") None None None).

Definition carol_record : ConversationMemory :=
  mkMemory "s9" 1700000002000 "hello" "hi" [] [] None
           (Some "carol") (Some "sales") None None None.

(** The log of alice, with the vector service back and its
    collection empty. *)
Definition recovered : Manager * World :=
  (mkManager (Some Client) (Some Handle) true,
   set_chroma (snd alice_json)
     (Chroma.mkService (Some []) (fun _ _ => 1 # 4) (fun _ => true) [])).

Definition ok_reply (st : Z) : ChromaRest.Request -> exc ChromaRest.Response :=
  fun _ => Ret (ChromaRest.mkResponse st (Ret "{}")).

Definition rest : ChromaRest.t :=
  ChromaRest.new (ChromaRest.mkOptions "http://chroma-svc:8000/" None None).

End Sample.

(** A character of an escaped URI component. *)
Definition uri_safe (c : ascii) : bool :=
  ChromaRest.uri_unreserved c || Ascii.eqb c "%".

(** ** Tag extraction ([extractTags]) *)

Definition commonTags : list string :=
  [ "javascript"; "typescript"; "python"; "react"; "node"; "docker";
    "kubernetes"; "aws"; "database"; "api"; "frontend"; "backend";
    "deployment"; "security"; "performance"; "testing"; "debugging";
    "configuration"; "integration"; "authentication"; "monitoring" ].

Definition extractTags (text : string) : list string :=
  let textLower := toLowerCase text in
  filter (fun tag => includes tag textLower) commonTags.

(** The blocks of a context prompt, one after the other. *)
Definition blocks (ms : list MemorySearchResult) : string :=
  fold_right (fun m acc => addition m ++ acc) "" ms.

(** The item the reload sends for a record. *)
Definition reload_item (m : ConversationMemory) : Chroma.item :=
  Chroma.mkItem (item_id m) (item_document m) (reload_metadata m).

(** The records the reload reads: those of every session file of every
    user directory, in the order of the walk. *)
Definition reload_records (d : Disk) : list ConversationMemory :=
  flat_map (fun filePath =>
              Spec.readable (Spec.previous d (fst filePath) (snd filePath)))
           (sessionFiles d).

(** ** The tool registry ([UnifiedToolRegistry]) *)

Module Registry.

Section Tools.

(** The arguments of a tool and the schema of its input are values the
    registry passes on without looking at them. *)
Variable Args : Type.
Variable Schema : Type.

(** What [tool.execute (args)] does: it returns a text, or it throws a
    value of which the handler takes the message. *)
Inductive run : Type :=
| Returned (text : string)
| Threw (errorMessage : string).

Record StandardTool : Type := mkTool {
  name : string;
  description : string;
  inputSchema : Schema;
  execute : Args -> run
}.

Record ToolSuite : Type := mkSuite {
  category : string;
  version : string;
  getTools : list StandardTool
}.

Record ToolRegistrationEntry : Type := mkEntry {
  entry_name : string;
  entry_description : string;
  entry_inputSchema : Schema;
  entry_suite : ToolSuite;
  entry_tool : StandardTool
}.

(** The two maps of the class, in insertion order. *)
Record t : Type := mkRegistry {
  tools : list (string * ToolRegistrationEntry);
  suites : list (string * ToolSuite)
}.

Definition empty : t := mkRegistry [] [].

Definition has (A : Type) (k : string) (es : list (string * A)) : bool :=
  match lookup k es with
  | Some _ => true
  | None => false
  end.

(** The loop of [registerSuite] over the tools of the suite: the tools
    map after it, and the message of the error that stopped it. *)
Fixpoint register_tools (suite : ToolSuite) (ts : list StandardTool)
    (m : list (string * ToolRegistrationEntry))
  : option string * list (string * ToolRegistrationEntry) :=
  match ts with
  | [] => (None, m)
  | tool :: rest =>
      if has (name tool) m
      then (Some ("Tool " ++ name tool ++ " already registered"), m)
      else register_tools suite rest
             (put (name tool)
                  (mkEntry (name tool) (description tool) (inputSchema tool)
                           suite tool)
                  m)
  end.

(** [registerSuite (suite)]: the error thrown, if any, and the
    registry after the call. *)
Definition registerSuite (r : t) (suite : ToolSuite) : option string * t :=
  let suiteKey := category suite ++ "-" ++ version suite in
  let suites' := put suiteKey suite (suites r) in
  let '(err, tools') := register_tools suite (getTools suite) (tools r) in
  (err, mkRegistry tools' suites').

(** [executeTool (name, args)]. *)
Definition executeTool (r : t) (nm : string) (args : Args) : run :=
  match lookup nm (tools r) with
  | None => Threw ("Unknown tool: " ++ nm)
  | Some entry =>
      match execute (entry_tool entry) args with
      | Returned text => Returned text
      | Threw errorMessage =>
          Returned ("Error executing " ++ nm ++ ": " ++ errorMessage)
      end
  end.

Definition getMCPTools (r : t) : list (string * string * Schema) :=
  map (fun e => (entry_name (snd e), entry_description (snd e),
                 entry_inputSchema (snd e)))
      (tools r).

Definition listTools (r : t) : list string := map fst (tools r).

Definition hasTool (r : t) (nm : string) : bool := has nm (tools r).

End Tools.

End Registry.

(** Two tools over text arguments: one echoes, one always throws. *)
Module RegistrySample.

Definition echo : Registry.StandardTool string unit :=
  Registry.mkTool "echo" "returns its argument" tt
                  (fun a => Registry.Returned a).

Definition broken : Registry.StandardTool string unit :=
  Registry.mkTool "broken" "always fails" tt
                  (fun _ => Registry.Threw "boom").

Definition suite : Registry.ToolSuite string unit :=
  Registry.mkSuite "demo" "1.0" [echo; broken].

(** A second suite that brings another tool under the name [echo]. *)
Definition shout : Registry.StandardTool string unit :=
  Registry.mkTool "echo" "returns its argument twice" tt
                  (fun a => Registry.Returned (a ++ a)).

Definition rival : Registry.ToolSuite string unit :=
  Registry.mkSuite "rival" "2.0" [shout].

End RegistrySample.

(** ** Path validation ([utils/path-utils.ts]) *)

Module PathUtils.

(** The functions of [path], [os], [process] and [fs] that the
    validator calls, taken as given. *)
Record Host : Type := mkHost {
  homedir : string;
  cwd : string;
  isAbsolute : string -> bool;
  resolve : string -> string;
  resolve_from : string -> string -> string;
  path_join : string -> string -> string;
  normalize : string -> string;
  dirname : string -> string;
  realpath : string -> exc string
}.

Inductive validated : Type :=
| Allowed (path : string)
| Denied (message : string).

Definition normalizePath (h : Host) (p : string) : string := normalize h p.

Definition expandHome (h : Host) (filepath : string) : string :=
  if String.prefix "~/" filepath || String.eqb filepath "~"
  then path_join h (homedir h) (drop 1 filepath)
  else filepath.

(** [allowedDirectories.some (dir => p.startsWith (dir))] *)
Definition within (allowedDirectories : list string) (p : string) : bool :=
  existsb (fun dir => String.prefix dir p) allowedDirectories.

(** The absolute path the validator works on. *)
Definition absolute_of (h : Host) (requestedPath : string) : string :=
  let expandedPath := expandHome h requestedPath in
  if isAbsolute h expandedPath then resolve h expandedPath
  else resolve_from h (cwd h) expandedPath.

(** The handler of the first [try]: the parent directory decides.  An
    error thrown inside its own [try] is replaced by the error of its
    handler. *)
Definition parent_check (h : Host) (absolute : string)
    (allowedDirectories : list string) : validated :=
  let parentDir := dirname h absolute in
  match realpath h parentDir with
  | Ret realParentPath =>
      if within allowedDirectories (normalizePath h realParentPath)
      then Allowed absolute
      else Denied ("Parent directory does not exist: " ++ parentDir)
  | Thrown => Denied ("Parent directory does not exist: " ++ parentDir)
  end.

Definition validatePath (h : Host) (requestedPath : string)
    (allowedDirectories : list string) : validated :=
  let absolute := absolute_of h requestedPath in
  let normalizedRequested := normalizePath h absolute in
  if negb (within allowedDirectories normalizedRequested)
  then Denied ("Access denied - path outside allowed directories: " ++
               absolute ++ " not in " ++ join ", " allowedDirectories)
  else
    match realpath h absolute with
    | Ret realPath =>
        if within allowedDirectories (normalizePath h realPath)
        then Allowed realPath
        else parent_check h absolute allowedDirectories
    | Thrown => parent_check h absolute allowedDirectories
    end.

(** A host whose paths are absolute and in normal form already, with
    one symbolic link, from /data/link to /etc/passwd. *)
Definition linked : Host :=
  mkHost "/home/u" "/" (fun _ => true) (fun p => p) (fun _ p => p)
         (fun a b => a ++ b) (fun p => p)
         (fun p => if String.eqb p "/data/link" then "/data" else p)
         (fun p => if String.eqb p "/data/link" then Ret "/etc/passwd"
                   else Ret p).

End PathUtils.

(** ** Context extraction ([extractContext]) *)

(** The class [\s] on code units below 256: tab to carriage return,
    space and no-break space. *)
Definition is_space (c : ascii) : bool :=
  let n := N_of_ascii c in
  ((9 <=? n)%N && (n <=? 13)%N) || (n =? 32)%N || (n =? 160)%N.

(** The class [[^\s,]]. *)
Definition ref_char (c : ascii) : bool :=
  negb (is_space c) && negb (Ascii.eqb c ",").

(** The longest prefix of characters of a class: a greedy star. *)
Fixpoint take_while (p : ascii -> bool) (s : string) : string :=
  match s with
  | EmptyString => EmptyString
  | String c s' => if p c then String c (take_while p s') else EmptyString
  end.

(** A match at the start of [s] of one of the keywords, in their order
    and whatever the case of the letters, then white space if [spaces]
    holds, then one or more characters of [[^\s,]]: the captured
    characters and the length of the whole match.  The white space and
    the capture are greedy, and giving back white space cannot help,
    for the capture cannot start with it. *)
Fixpoint match_keyword (spaces : bool) (keywords : list string) (s : string)
  : option (string * nat) :=
  match keywords with
  | [] => None
  | kw :: rest =>
      if String.prefix kw (toLowerCase s) then
        let after := drop (String.length kw) s in
        let ws := if spaces then take_while is_space after else EmptyString in
        let capture := take_while ref_char (drop (String.length ws) after) in
        match capture with
        | EmptyString => match_keyword spaces rest s
        | String _ _ =>
            Some (capture,
                  (String.length kw + String.length ws +
                   String.length capture)%nat)
        end
      else match_keyword spaces rest s
  end.

(** [/(?:file:|filename:|path:)\s*([^\s,]+)/gi] at the start of [s]:
    the first group. *)
Definition fileRegex (s : string) : option (string * nat) :=
  match_keyword true ["file:"; "filename:"; "path:"] s.

(** [/https?:\/\/[^\s,]+/gi] at the start of [s]: the whole match. *)
Definition urlRegex (s : string) : option (string * nat) :=
  match match_keyword false ["https://"; "http://"] s with
  | Some (_, n) => Some (String.substring 0 n s, n)
  | None => None
  end.

(** The loop [while ((match = regex.exec (text)) !== null)]: the
    matches from left to right, each search starting where the match
    before ended; [skip] counts the characters still inside it. *)
Fixpoint exec_all (regex : string -> option (string * nat)) (skip : nat)
    (s : string) : list string :=
  match s with
  | EmptyString => []
  | String _ s' =>
      match skip with
      | S k => exec_all regex k s'
      | O =>
          match regex s with
          | Some (found, n) => found :: exec_all regex (Nat.pred n) s'
          | None => exec_all regex O s'
          end
      end
  end.

(** [[...new Set (l)]]: the first occurrence of each element. *)
Fixpoint uniq (l : list string) : list string :=
  match l with
  | [] => []
  | x :: rest => x :: filter (fun y => negb (String.eqb x y)) (uniq rest)
  end.

Definition extractContext (text : string) : list string :=
  uniq (map (fun found => ("file: " ++ found)%string)
             (exec_all fileRegex O text) ++
        map (fun found => ("url: " ++ found)%string)
            (exec_all urlRegex O text))%list.

(** ** Tool handlers ([handleMemoryTool]) *)

(** The arguments of [store_conversation_memory]. *)
Record StoreArgs : Type := mkStoreArgs {
  arg_sessionId : string;
  arg_userMessage : string;
  arg_assistantResponse : string;
  arg_context : option (list string);
  arg_tags : option (list string);
  arg_autoExtract : option bool;
  arg_visibility : option string;
  arg_target : option string
}.

(** [args.autoExtract !== false] *)
Definition autoExtract (args : StoreArgs) : bool :=
  match arg_autoExtract args with
  | Some false => false
  | _ => true
  end.

Definition store_tags (args : StoreArgs) : list string :=
  let tags := default [] (arg_tags args) in
  if autoExtract args
  then uniq (tags ++ extractTags (arg_userMessage args ++ " " ++
                                  arg_assistantResponse args)%string)%list
  else tags.

Definition store_context (args : StoreArgs) : list string :=
  let context := default [] (arg_context args) in
  if autoExtract args
  then uniq (context ++ extractContext (arg_userMessage args ++ " " ++
                                        arg_assistantResponse args)%string)%list
  else context.

(** The object the handler passes to [storeConversation]; [now] is
    [Date.now ()]. *)
Definition store_record (now : Z) (args : StoreArgs) : ConversationMemory :=
  mkMemory (arg_sessionId args) now (arg_userMessage args)
           (arg_assistantResponse args) (store_context args)
           (store_tags args) None None None None None None.

(** The check mark and the ballot cross of the replies, as the bytes
    of their UTF-8 form. *)
Definition check_mark : string :=
  String (ascii_of_N 226) (String (ascii_of_N 156)
    (String (ascii_of_N 147) EmptyString)).

Definition ballot_cross : string :=
  String (ascii_of_N 226) (String (ascii_of_N 156)
    (String (ascii_of_N 151) EmptyString)).

Definition count_text (A : Type) (l : list A) : string :=
  num_to_string (Z.of_nat (List.length l)).

(** The case [store_conversation_memory], past the guard that throws
    when no manager is set. *)
Definition handle_store (now : Z) (mgr : Manager) (w : World)
    (args : StoreArgs) : string * Manager * World :=
  let '(success, mgr', w') := storeConversation mgr w (store_record now args) in
  ((if success
    then check_mark ++ " Memory stored for session '" ++ arg_sessionId args ++
         "' with " ++ count_text (store_tags args) ++ " tags and " ++
         count_text (store_context args) ++ " context items"
    else ballot_cross ++ " Failed to store conversation memory"),
   mgr', w').

(** The case [delete_memory_session], past the same guard. *)
Definition handle_delete (w : World) (sessionId : string) : string * World :=
  let '(_, w') := deleteSession w sessionId in
  (check_mark ++ " Session '" ++ sessionId ++ "' deleted successfully", w').

(** ** Session summary ([getSessionSummary]) *)

(** [fs.readFile (path.join (memoryDir, f), 'utf8')], for a component
    [f]: a file directly under the memory directory. *)
Definition readFile_root (d : Disk) (f : string) : exc text :=
  match lookup f (top d) with
  | Some (Plain t) => Ret t
  | _ => Thrown
  end.

(** What [getSessionSummary] returns: [null]; the summary made of the
    search results; the summary made of the session file, whose time
    range is absent for an empty array (the minimum and the maximum of
    nothing are the infinities); or the summary of an array that holds
    elements that are not records, which depends on what they are and
    is not interpreted. *)
Inductive Summary : Type :=
| NoSummary
| FromSearch (sessionId : string) (conversationCount : Z)
             (recentMemories : list MemorySearchResult)
| FromJson (sessionId : string) (conversationCount : Z)
           (tags context : list string) (timeRange : option (Z * Z))
| Garbled (memories : list elem).

Fixpoint records_of (l : list elem) : option (list ConversationMemory) :=
  match l with
  | [] => Some []
  | Rec m :: rest =>
      match records_of rest with
      | Some ms => Some (m :: ms)
      | None => None
      end
  | Junk :: _ => None
  end.

Definition timeRange_of (ms : list ConversationMemory) : option (Z * Z) :=
  match ms with
  | [] => None
  | m :: rest =>
      Some (fold_left Z.min (map timestamp rest) (timestamp m),
            fold_left Z.max (map timestamp rest) (timestamp m))
  end.

(** The fallback on the session file. *)
Definition summary_of_file (d : Disk) (sessionId : string) : Summary :=
  match readFile_root d (session_file sessionId) with
  | Ret (Parses (JArray memories)) =>
      match records_of memories with
      | Some ms =>
          FromJson sessionId (Z.of_nat (List.length ms))
                   (uniq (flat_map tags ms)) (uniq (flat_map context ms))
                   (timeRange_of ms)
      | None => Garbled memories
      end
  | _ => NoSummary
  end.

Definition getSessionSummary (mgr : Manager) (w : World)
    (sessionId : string) : Summary * World :=
  match collection mgr with
  | Some _ =>
      let '(_, results, w1) :=
        searchRelevantMemories mgr w "" (Some sessionId) (Some 10) in
      match results with
      | _ :: _ =>
          (FromSearch sessionId (Z.of_nat (List.length results))
                      (slice0 results 3), w1)
      | [] => (summary_of_file (disk w1) sessionId, w1)
      end
  | None => (summary_of_file (disk w) sessionId, w)
  end.

(** * Properties *)

Import Spec.

(** ** Association lists *)

Lemma lookup_put (A : Type) (k : string) (v : A) (es : list (string * A)) :
  lookup k (put k v es) = Some v.
Proof.
  induction es as [|[n b] rest IH]; simpl.
  - now rewrite String.eqb_refl.
  - destruct (String.eqb n k) eqn:E; simpl; rewrite E; auto.
Qed.

Lemma lookup_app_new (A : Type) (k : string) (v : A) (es : list (string * A)) :
  lookup k es = None -> lookup k (es ++ [(k, v)])%list = Some v.
Proof.
  induction es as [|[n b] rest IH]; simpl; intros H.
  - now rewrite String.eqb_refl.
  - destruct (String.eqb n k); [discriminate | auto].
Qed.

Lemma lookup_remove_other (A : Type) (k f : string) (a : A)
    (es : list (string * A)) :
  lookup k es = Some a ->
  (forall b, lookup f es = Some b -> b <> a) ->
  lookup k (remove f es) = Some a.
Proof.
  induction es as [|[n b] rest IH]; simpl; intros Hk Hf; [discriminate|].
  destruct (String.eqb n f) eqn:Ef.
  - destruct (String.eqb n k) eqn:Ek; [|exact Hk].
    injection Hk as ->. now destruct (Hf a).
  - simpl. destruct (String.eqb n k); auto.
Qed.

(** ** The REST provisioning client *)

(** C9.  When the create-collection request gets a response,
    [ensureCollection] returns exactly when the status is 200, 201 or
    409, and throws for every other status; with a readable body the
    error carries the status and the body. *)
Theorem ensureCollection_accepts_200_201_409 :
  forall (c : ChromaRest.t) (fetch : ChromaRest.Request -> exc ChromaRest.Response)
         (name : string) (r : ChromaRest.Response),
    fetch (ChromaRest.mkRequest (ChromaRest.td c "/collections")
             ChromaRest.POST (Some name)) = Ret r ->
    (ChromaRest.ensureCollection c fetch name = ChromaRest.Done <->
     ChromaRest.status r = 200 \/ ChromaRest.status r = 201 \/
     ChromaRest.status r = 409) /\
    (forall t, ChromaRest.status r <> 200 -> ChromaRest.status r <> 201 ->
               ChromaRest.status r <> 409 ->
               ChromaRest.text r = Ret t ->
               ChromaRest.ensureCollection c fetch name =
               ChromaRest.Error ("ensureCollection failed: " ++
                                 num_to_string (ChromaRest.status r) ++
                                 " " ++ t)).
Proof.
  intros c fetch name r Hfetch.
  unfold ChromaRest.ensureCollection. rewrite Hfetch.
  unfold ChromaRest.accepted. simpl.
  destruct (Z.eqb_spec (ChromaRest.status r) 200) as [E1|N1];
    [simpl; split; [split; auto | intros; congruence]|].
  destruct (Z.eqb_spec (ChromaRest.status r) 201) as [E2|N2];
    [simpl; split; [split; auto | intros; congruence]|].
  destruct (Z.eqb_spec (ChromaRest.status r) 409) as [E3|N3];
    [simpl; split; [split; auto | intros; congruence]|].
  simpl. split.
  - split.
    + destruct (ChromaRest.text r); discriminate.
    + intros [H|[H|H]]; congruence.
  - intros t _ _ _ Ht. now rewrite Ht.
Qed.

Lemma ensureCollection_accepts_200_201_409_witness :
  (ChromaRest.ensureCollection Sample.rest (Sample.ok_reply 409) "llm_conversation_memory"
   = ChromaRest.Done <->
   409 = 200 \/ 409 = 201 \/ 409 = 409) /\
  (forall t, 409 <> 200 -> 409 <> 201 -> 409 <> 409 ->
             Ret "{}" = Ret t ->
             ChromaRest.ensureCollection Sample.rest (Sample.ok_reply 409)
               "llm_conversation_memory" =
             ChromaRest.Error ("ensureCollection failed: " ++
                               num_to_string 409 ++ " " ++ t)).
Proof.
  apply (@ensureCollection_accepts_200_201_409 Sample.rest (Sample.ok_reply 409)
           "llm_conversation_memory" (ChromaRest.mkResponse 409 (Ret "{}"))).
  reflexivity.
Defined.

(** ** The durable log *)

Lemma readable_app (l : list elem) (m : ConversationMemory) :
  forallb (fun e => match e with Rec _ => true | Junk => false end) l = true ->
  readable (l ++ [Rec m])%list = (readable l ++ [m])%list.
Proof.
  induction l as [|[r|] rest IH]; simpl; intros H.
  - reflexivity.
  - now rewrite IH.
  - discriminate.
Qed.

Lemma top_set_top (d : Disk) (es : list (string * node)) :
  top (set_top d es) = es.
Proof. reflexivity. Qed.

(** On a session file that can be extended, named by components, the
    append returns true and leaves the previous elements followed by the
    new record. *)
Lemma storeConversationToJson_appends (w : World) (m : ConversationMemory) :
  component (userSafe_of w m) = true ->
  component (session_file (sessionId m)) = true ->
  appendable (disk w) (userSafe_of w m) (session_file (sessionId m)) = true ->
  fst (storeConversationToJson w m) = true /\
  readFile (disk (snd (storeConversationToJson w m)))
           (userSafe_of w m) (session_file (sessionId m)) =
  Ret (Parses (JArray (previous (disk w) (userSafe_of w m)
                         (session_file (sessionId m)) ++ [Rec m])%list)).
Proof.
  unfold appendable, storeConversationToJson, previous.
  set (u := userSafe_of w m). set (f := session_file (sessionId m)).
  intros _ _ H. apply andb_prop in H as [Hw H].
  unfold mkdir, readFile.
  destruct (lookup u (top (disk w))) as [[t|es]|] eqn:Eu; try discriminate.
  - (* the user directory exists *)
    unfold readFile. rewrite Eu.
    assert (W : forall l,
      fst (match writeFile (disk w) u f (Parses (JArray l)) with
           | (Ret _, d2) => (true, set_disk w d2)
           | (Thrown, d2) => (false, set_disk w d2)
           end) = true /\
      readFile (disk (snd (match writeFile (disk w) u f (Parses (JArray l)) with
                           | (Ret _, d2) => (true, set_disk w d2)
                           | (Thrown, d2) => (false, set_disk w d2)
                           end))) u f = Ret (Parses (JArray l))).
    { intros l. unfold writeFile. rewrite Eu.
      assert (G : readFile
                    (set_top (disk w)
                       (put u (Dir (put f (File (Parses (JArray l))) es))
                            (top (disk w)))) u f = Ret (Parses (JArray l))).
      { unfold readFile. rewrite top_set_top. now rewrite !lookup_put. }
      destruct (lookup f es) as [[t|]|]; try discriminate;
        rewrite Hw; simpl; auto. }
    destruct (lookup f es) as [[[|[l|s|]]|]|] eqn:Ef; try discriminate;
      simpl; apply W.
  - (* the user directory is created *)
    rewrite Hw. unfold readFile.
    assert (L : lookup u (top (set_top (disk w)
                  (top (disk w) ++ [(u, Dir [])])%list)) = Some (Dir [])).
    { rewrite top_set_top. now apply lookup_app_new. }
    rewrite L. simpl. unfold writeFile. rewrite L. simpl. rewrite Hw. simpl.
    unfold readFile. rewrite top_set_top, lookup_put. simpl.
    now rewrite String.eqb_refl.
Qed.

(** A session file that parses to something other than an array makes
    the append return false and leaves the file as it was. *)
Lemma storeConversationToJson_rejects_non_array
    (w : World) (m : ConversationMemory) (v : json) :
  readFile (disk w) (userSafe_of w m) (session_file (sessionId m)) =
    Ret (Parses v) ->
  (forall l, v <> JArray l) ->
  storeConversationToJson w m = (false, set_disk w (disk w)).
Proof.
  unfold storeConversationToJson.
  set (u := userSafe_of w m). set (f := session_file (sessionId m)).
  intros R N. unfold mkdir.
  assert (D : exists es, lookup u (top (disk w)) = Some (Dir es)).
  { unfold readFile in R.
    destruct (lookup u (top (disk w))) as [[t|es]|]; try discriminate; eauto. }
  destruct D as [es D]. rewrite D, R.
  destruct v as [l|s|]; simpl; auto. now destruct (N l).
Qed.

Lemma initialize_keeps (mgr : Manager) (w : World) :
  rc (snd (initialize mgr w)) = rc w /\
  env (snd (initialize mgr w)) = env w /\
  top (disk (snd (initialize mgr w))) = top (disk w) /\
  writable (disk (snd (initialize mgr w))) = writable (disk w).
Proof.
  unfold initialize, mkdir_root, top.
  destruct (initialized mgr); [auto|].
  destruct (root (disk w)) eqn:R; [|destruct (writable (disk w)) eqn:W]; simpl;
    try (destruct (client mgr); [destruct (provision (chroma w)) as [[h|] s1]|]);
    simpl; rewrite ?R; auto.
Qed.

Lemma appendable_ext (d1 d2 : Disk) (u f : string) :
  top d1 = top d2 -> writable d1 = writable d2 ->
  appendable d1 u f = appendable d2 u f.
Proof. unfold appendable. now intros -> ->. Qed.

Lemma previous_ext (d1 d2 : Disk) (u f : string) :
  top d1 = top d2 -> previous d1 u f = previous d2 u f.
Proof. unfold previous, readFile. now intros ->. Qed.

(** ** Ownership *)

Lemma or_chain_first_set (a b c : option string) (lit : string) :
  or_lit (or_else (or_else a b) c) lit = first_set [a; b; c] lit.
Proof.
  destruct a as [[|? ?]|], b as [[|? ?]|], c as [[|? ?]|]; reflexivity.
Qed.

Lemma resolve_userId_precedence (w : World) (m : ConversationMemory) :
  resolve_userId w m = owner_userId w m.
Proof. apply or_chain_first_set. Qed.

Lemma resolve_teamId_precedence (w : World) (m : ConversationMemory) :
  resolve_teamId w m = owner_teamId w m.
Proof. apply or_chain_first_set. Qed.

Lemma first_set_nonempty (l : list (option string)) (c : ascii) (s : string) :
  exists c' s', first_set l (String c s) = String c' s'.
Proof.
  induction l as [|[[|? ?]|] rest IH]; simpl; eauto.
Qed.

Lemma userSafe_of_owner (w : World) (m : ConversationMemory)
    (c : ascii) (s t : string) (v : Visibility) :
  userSafe_of w (with_owner m (String c s) t v) = sanitize (String c s).
Proof. reflexivity. Qed.

(** The step that opens [storeConversation] leaves the identity sources
    and the content of the memory directory as they were. *)
Lemma store_prelude (mgr : Manager) (w : World) (mgr1 : Manager) (w1 : World) :
  (if initialized mgr then (mgr, w) else initialize mgr w) = (mgr1, w1) ->
  rc w1 = rc w /\ env w1 = env w /\
  top (disk w1) = top (disk w) /\ writable (disk w1) = writable (disk w).
Proof.
  destruct (initialized mgr).
  - intros [= <- <-]. auto.
  - intros E. pose proof (initialize_keeps mgr w) as K.
    rewrite E in K. exact K.
Qed.

(** Whatever happens on the vector side, the memory directory after
    [storeConversation] is the one the JSON step left. *)
Lemma storeConversation_disk (mgr : Manager) (w : World)
    (m : ConversationMemory) (mgr1 : Manager) (w1 : World) :
  (if initialized mgr then (mgr, w) else initialize mgr w) = (mgr1, w1) ->
  disk (snd (storeConversation mgr w m)) =
  disk (if disableJson (env w1) then w1
        else snd (storeConversationToJson w1
                    (with_owner m (resolve_userId w1 m) (resolve_teamId w1 m)
                                (default Team (visibility m))))).
Proof.
  intros E. unfold storeConversation. rewrite E.
  destruct (is_private _ && jsonOnlyPrivate _); [reflexivity|].
  destruct (client mgr1), (collection mgr1); try reflexivity.
  destruct (Chroma.add _ _) as [[?|] ?]; reflexivity.
Qed.

(** C6.  At write time the user and the team of a record are the first
    that is set among the request scope context, the environment default
    and the record itself, else the sentinel; and with JSON persistence
    on, the record, carrying these owners, is appended to the session
    file in the directory named after the resolved user, when the
    sanitised name of that user and the name of the session file are
    single path components. *)
Theorem ownership_precedence_decides_directory :
  forall (mgr : Manager) (w : World) (m : ConversationMemory),
    disableJson (env w) = false ->
    component (sanitize (owner_userId w m)) = true ->
    component (session_file (sessionId m)) = true ->
    appendable (disk w) (sanitize (owner_userId w m))
               (session_file (sessionId m)) = true ->
    resolve_userId w m = owner_userId w m /\
    resolve_teamId w m = owner_teamId w m /\
    readFile (disk (snd (storeConversation mgr w m)))
             (sanitize (owner_userId w m)) (session_file (sessionId m)) =
    Ret (Parses (JArray
      (previous (disk w) (sanitize (owner_userId w m))
                (session_file (sessionId m)) ++
       [Rec (with_owner m (owner_userId w m) (owner_teamId w m)
                        (default Team (visibility m)))])%list)).
Proof.
  intros mgr w m HJ HU HF HA.
  split; [apply resolve_userId_precedence|].
  split; [apply resolve_teamId_precedence|].
  destruct (if initialized mgr then (mgr, w) else initialize mgr w)
    as [mgr1 w1] eqn:E.
  destruct (store_prelude _ _ E) as (Hrc & Henv & Htop & Hwr).
  rewrite (storeConversation_disk _ _ m E).
  assert (Hu : resolve_userId w1 m = owner_userId w m).
  { rewrite <- resolve_userId_precedence. unfold resolve_userId.
    now rewrite Hrc, Henv. }
  assert (Ht : resolve_teamId w1 m = owner_teamId w m).
  { rewrite <- resolve_teamId_precedence. unfold resolve_teamId.
    now rewrite Hrc, Henv. }
  rewrite Henv, HJ, Hu, Ht.
  destruct (first_set_nonempty
              [RequestContext.userId (rc w); MCP_USER_ID (env w); userId m]
              "u" "nknown-user") as (c & s & Hn).
  change (owner_userId w m = String c s) in Hn.
  set (m' := with_owner m (owner_userId w m) (owner_teamId w m)
                        (default Team (visibility m))).
  assert (Hdir : userSafe_of w1 m' = sanitize (owner_userId w m)).
  { unfold m'. rewrite Hn. apply userSafe_of_owner. }
  pose proof (storeConversationToJson_appends w1 m') as A.
  rewrite Hdir in A. change (sessionId m') with (sessionId m) in A.
  rewrite (appendable_ext _ _ _ _ Htop Hwr) in A.
  rewrite (previous_ext _ _ _ _ Htop) in A.
  exact (proj2 (A HU HF HA)).
Qed.

Lemma ownership_precedence_decides_directory_witness :
  resolve_userId Sample.scoped Sample.carol_record = "bob@corp.com" /\
  resolve_teamId Sample.scoped Sample.carol_record = "ops" /\
  readFile (disk (snd (storeConversation (new_manager false) Sample.scoped
                         Sample.carol_record)))
           "bob_corp.com" "s9.json" =
  Ret (Parses (JArray
    [Rec (with_owner Sample.carol_record "bob@corp.com" "ops" Team)])).
Proof.
  apply (@ownership_precedence_decides_directory (new_manager false)
           Sample.scoped Sample.carol_record); reflexivity.
Defined.

(** ** Append, then scan *)

(** On a session file that is missing, unparsable or an array of
    records, named by components, the append succeeds and a scan then
    reads the records read before, in their order, followed by the new
    one. *)
Lemma append_then_scan (w : World) (m : ConversationMemory) :
  component (userSafe_of w m) = true ->
  component (session_file (sessionId m)) = true ->
  appendable (disk w) (userSafe_of w m) (session_file (sessionId m)) = true ->
  forallb (fun e => match e with Rec _ => true | Junk => false end)
          (previous (disk w) (userSafe_of w m) (session_file (sessionId m)))
    = true ->
  fst (storeConversationToJson w m) = true /\
  scan (disk (snd (storeConversationToJson w m))) (userSafe_of w m)
       (sessionId m) =
  (scan (disk w) (userSafe_of w m) (sessionId m) ++ [m])%list.
Proof.
  intros HU HF HA HR.
  destruct (storeConversationToJson_appends w m HU HF HA) as [Hok Hread].
  split; [exact Hok|].
  unfold scan at 1. unfold previous at 1. rewrite Hread.
  now apply readable_app.
Qed.

(** C7, at a session file that holds the JSON value [null]: the append
    returns false, the file stays as it was, and the scan of the session
    returns nothing, so the record is lost. *)
Theorem append_fails_on_non_array_file :
  let m := with_owner Sample.nginx "alice" "default-team" Team in
  storeConversationToJson Sample.null_file m = (false, Sample.null_file) /\
  scan (disk Sample.null_file) "alice" "s1" = [] /\
  searchJsonMemories Sample.null_file "" (Some "s1") None = [].
Proof. repeat split. Qed.

(** On an array that holds an element that is not a record, the append
    succeeds, yet the scan stops at that element and never reaches the
    new record. *)
Example append_after_junk_is_not_scanned :
  let m := with_owner Sample.nginx "alice" "default-team" Team in
  fst (storeConversationToJson Sample.junk_file m) = true /\
  previous (disk (snd (storeConversationToJson Sample.junk_file m)))
           "alice" "s1.json" = [Junk; Rec m] /\
  searchJsonMemories (snd (storeConversationToJson Sample.junk_file m))
                     "" (Some "s1") None = [].
Proof. repeat split. Qed.

(** ** Write failures *)

Lemma storeConversation_returns_true (mgr : Manager) (w : World)
    (m : ConversationMemory) :
  fst (fst (storeConversation mgr w m)) = true.
Proof.
  unfold storeConversation.
  destruct (if initialized mgr then (mgr, w) else initialize mgr w)
    as [mgr1 w1].
  destruct (is_private _ && jsonOnlyPrivate _); [reflexivity|].
  destruct (client mgr1), (collection mgr1); try reflexivity.
  destruct (Chroma.add _ _) as [[?|] ?]; reflexivity.
Qed.

(** C3, with JSON persistence on and a session file that can be read
    but not written: [fs.writeFile] throws, the append to the durable
    log returns false and writes nothing, and [storeConversation]
    returns true all the same. *)
Theorem storeConversation_hides_write_failure :
  disableJson (env Sample.read_only) = false /\
  fst (writeFile (disk Sample.read_only) "alice" "s1.json"
         (Parses (JArray [Rec (with_owner Sample.nginx "alice"
                                 "default-team" Team)]))) = Thrown /\
  fst (storeConversationToJson Sample.read_only
         (with_owner Sample.nginx "alice" "default-team" Team)) = false /\
  fst (fst (storeConversation json_only Sample.read_only Sample.nginx))
    = true /\
  disk (snd (storeConversation json_only Sample.read_only Sample.nginx))
    = disk Sample.read_only.
Proof. repeat split. Qed.

(** ** Sessions *)

Lemma reader_userId_set_disk (w : World) (d : Disk) :
  reader_userId (set_disk w d) = reader_userId w.
Proof. reflexivity. Qed.

(** When the name of the active user and the name of the session file
    are single path components, [deleteSession] removes a file directly
    under the memory directory; the session files live one level below,
    so no listed session goes away. *)
Lemma deleteSession_keeps_listing (w : World) (sid x : string) :
  component (reader_userId w) = true ->
  component (session_file sid) = true ->
  In x (listSessions w) -> In x (listSessions (snd (deleteSession w sid))).
Proof.
  intros _ _.
  unfold listSessions, deleteSession, readdir, unlink_root.
  destruct (lookup (reader_userId w) (top (disk w))) as [[t|es]|] eqn:Eu;
    try (intros []).
  intros Hx.
  destruct (lookup (session_file sid) (top (disk w))) as [[t|es']|] eqn:Ef;
    [destruct (writable (disk w))| |]; simpl;
    rewrite reader_userId_set_disk; try (rewrite Eu; exact Hx).
  rewrite top_set_top.
  rewrite (@lookup_remove_other _ _ (session_file sid) (Dir es) _ Eu).
  - exact Hx.
  - intros b Hb. rewrite Ef in Hb. injection Hb as <-. discriminate.
Qed.

(** C2, after alice stored one record in session s1: [deleteSession]
    of s1 returns false, and [listSessions] still lists s1. *)
Theorem deleteSession_leaves_session_listed :
  listSessions (snd Sample.alice_json) = ["s1"] /\
  fst (deleteSession (snd Sample.alice_json) "s1") = false /\
  listSessions (snd (deleteSession (snd Sample.alice_json) "s1")) = ["s1"].
Proof. repeat split. Qed.

(** ** The keyword fallback *)

Lemma In_firstn (A : Type) (n : nat) (l : list A) (x : A) :
  In x (firstn n l) -> In x l.
Proof.
  revert l; induction n as [|n IH]; intros [|a l]; simpl; try tauto.
  intros [H|H]; auto.
Qed.

Lemma slice0_nonneg (A : Type) (l : list A) (e : Z) :
  0 <= e -> slice0 l e = firstn (Z.to_nat e) l.
Proof.
  intros H. unfold slice0.
  destruct (Z.ltb_spec e 0); [lia | reflexivity].
Qed.

Lemma slice0_truncate (A : Type) (l : list A) (e : Z) :
  slice0 l e = truncate e l.
Proof.
  unfold slice0, truncate.
  destruct (Z.ltb_spec e 0), (Z.leb_spec 0 e); try lia; [|reflexivity].
  f_equal. lia.
Qed.

Lemma truncate_nil (A : Type) (e : Z) : truncate e (@nil A) = [].
Proof. unfold truncate. destruct (0 <=? e); now rewrite firstn_nil. Qed.

Lemma truncate_length (A : Type) (l : list A) (e : Z) :
  0 <= e -> Z.of_nat (List.length (truncate e l)) <= e.
Proof.
  intros H. unfold truncate. destruct (Z.leb_spec 0 e); [|lia].
  pose proof (firstn_le_length (Z.to_nat e) l). lia.
Qed.

Lemma json_result_fallback (m : ConversationMemory) :
  json_result m = fallback_result m.
Proof. reflexivity. Qed.

Lemma searchText_matched (m : ConversationMemory) :
  searchText m = toLowerCase (matched_text m).
Proof. reflexivity. Qed.

Lemma reader_userId_active (w : World) : reader_userId w = active_user w.
Proof.
  unfold reader_userId, active_user.
  destruct (RequestContext.userId (rc w)) as [[|? ?]|],
           (MCP_USER_ID (env w)) as [[|? ?]|]; reflexivity.
Qed.

Lemma scan_memories_spec (q : string) (l : list elem)
    (acc : list MemorySearchResult) :
  scan_memories (toLowerCase q) l acc =
  (acc ++ map fallback_result (filter (keyword_hit q) (readable l)))%list.
Proof.
  revert acc; induction l as [|[m|] rest IH]; intros acc; simpl.
  - now rewrite app_nil_r.
  - rewrite IH. unfold keyword_hit at 2.
    rewrite searchText_matched, json_result_fallback.
    destruct (includes (toLowerCase q) (toLowerCase (matched_text m))); simpl.
    + now rewrite <- app_assoc.
    + reflexivity.
  - now rewrite app_nil_r.
Qed.

Lemma scan_file_spec (d : Disk) (u q : string)
    (acc : list MemorySearchResult) (f : string) :
  scan_file d u (toLowerCase q) acc f =
  (acc ++ map fallback_result
            (filter (keyword_hit q) (file_records d u f)))%list.
Proof.
  unfold scan_file, file_records, previous.
  destruct (endsWith ".json" f); simpl; [|now rewrite app_nil_r].
  destruct (readFile d u f) as [[|[l|s|]]|]; simpl;
    try now rewrite app_nil_r.
  apply scan_memories_spec.
Qed.

Lemma scan_files_spec (d : Disk) (u q : string) (files : list string) :
  forall acc,
    fold_left (scan_file d u (toLowerCase q)) files acc =
    (acc ++ map fallback_result
              (filter (keyword_hit q) (flat_map (file_records d u) files)))%list.
Proof.
  induction files as [|f rest IH]; intros acc; simpl.
  - now rewrite app_nil_r.
  - rewrite IH, scan_file_spec, filter_app, map_app.
    now rewrite <- app_assoc.
Qed.

Lemma no_directory_no_records (d : Disk) (u : string) (files : list string) :
  lookup u (top d) = None -> flat_map (file_records d u) files = [].
Proof.
  intros H. induction files as [|f rest IH]; simpl; [reflexivity|].
  rewrite IH, app_nil_r. unfold file_records, previous, readFile.
  rewrite H. now destruct (endsWith ".json" f).
Qed.

Lemma scanned_files_truthy (w : World) (sid : option string) :
  scanned_files w sid =
  if truthy sid then [session_file (or_lit sid "")]
  else match readdir (disk w) (active_user w) with
       | Ret files => files
       | Thrown => []
       end.
Proof. destruct sid as [[|c s]|]; reflexivity. Qed.

(** The code of the fallback computes the keyword search of the
    specification. *)
Lemma searchJsonMemories_spec (w : World) (q : string)
    (sid : option string) (limit : option Z) :
  searchJsonMemories w q sid limit = keyword_search w q sid (default 5 limit).
Proof.
  unfold searchJsonMemories, keyword_search, scanned_records, access.
  rewrite scanned_files_truthy, <- reader_userId_active.
  destruct (lookup (reader_userId w) (top (disk w))) as [n|] eqn:Eu.
  - destruct (truthy sid).
    + rewrite scan_files_spec. apply slice0_truncate.
    + destruct (readdir (disk w) (reader_userId w)) as [files|].
      * rewrite scan_files_spec. apply slice0_truncate.
      * simpl. now rewrite truncate_nil.
  - rewrite no_directory_no_records by exact Eu. simpl.
    now rewrite truncate_nil.
Qed.

Lemma In_truncate (A : Type) (e : Z) (l : list A) (x : A) :
  In x (truncate e l) -> In x l.
Proof. unfold truncate. destruct (0 <=? e); apply In_firstn. Qed.

Lemma keyword_search_distance (w : World) (q : string)
    (sid : option string) (n : Z) :
  Forall (fun r => distance r = 1 # 2) (keyword_search w q sid n).
Proof.
  apply Forall_forall. intros r Hr. unfold keyword_search in Hr.
  apply In_truncate in Hr. apply in_map_iff in Hr as (m & <- & _).
  reflexivity.
Qed.

Lemma searchRelevantMemories_fallback (mgr : Manager) (w : World)
    (q : string) (sid : option string) (limit : option Z) :
  client mgr = None \/ collection mgr = None \/
  fst (Chroma.query (chroma w) q (default 5 limit)
         (search_where (env w) sid)) = Thrown \/
  fst (Chroma.query (chroma w) q (default 5 limit)
         (search_where (env w) sid)) = Ret [] ->
  fst (searchRelevantMemories mgr w q sid limit) =
    (JsonFallback, keyword_search w q sid (default 5 limit)).
Proof.
  intros Hcase. unfold searchRelevantMemories.
  destruct (collection mgr) as [h|], (client mgr) as [c|];
    try (simpl; now rewrite searchJsonMemories_spec).
  destruct Hcase as [H|[H|H]]; try discriminate.
  destruct (Chroma.query (chroma w) q (default 5 limit)
              (search_where (env w) sid)) as [[[|r rows]|] s1];
    simpl in H; try (destruct H; discriminate);
    simpl; rewrite searchJsonMemories_spec; reflexivity.
Qed.

(** C4.  When the manager has no client or no collection, or the vector
    query throws, or it returns no document, the search returns the
    keyword search over the session files of the active user (the file
    of the named session, else every file of the directory of that
    user): for each record whose lower-cased user message, assistant
    response and tags contain the lower-cased query, in scan order, the
    result made of the two texts of the record and of its session, time,
    tags and context, truncated to the limit; each result has the
    distance 0.5.  The names of the user and of the session file are
    single path components; the limit is any integer. *)
Theorem fallback_is_keyword_search :
  forall (mgr : Manager) (w : World) (q : string) (sid : option string)
         (limit : option Z),
    component (active_user w) = true ->
    (forall s, sid = Some s -> s <> "" -> component (s ++ ".json") = true) ->
    client mgr = None \/ collection mgr = None \/
    fst (Chroma.query (chroma w) q (default 5 limit)
           (search_where (env w) sid)) = Thrown \/
    fst (Chroma.query (chroma w) q (default 5 limit)
           (search_where (env w) sid)) = Ret [] ->
    fst (searchRelevantMemories mgr w q sid limit) =
      (JsonFallback, keyword_search w q sid (default 5 limit)) /\
    Forall (fun r => distance r = 1 # 2)
           (snd (fst (searchRelevantMemories mgr w q sid limit))).
Proof.
  intros mgr w q sid limit _ _ Hcase.
  rewrite (searchRelevantMemories_fallback mgr w q sid limit Hcase).
  split; [reflexivity | apply keyword_search_distance].
Qed.

Lemma fallback_is_keyword_search_witness :
  fst (searchRelevantMemories (fst Sample.alice_json) (snd Sample.alice_json)
         "NGINX" (Some "s1") None) =
    (JsonFallback,
     [ {| content := "User: fix nginx config" ++ nl ++
                     "Assistant: edit /etc/nginx/nginx.conf";
          metadata := [ ("sessionId", Chroma.MStr "s1");
                        ("timestamp", Chroma.MNum 1700000000000);
                        ("tags", Chroma.MArr ["configuration"]);
                        ("context", Chroma.MArr []) ];
          distance := 1 # 2 |} ]) /\
  Forall (fun r => distance r = 1 # 2)
         (snd (fst (searchRelevantMemories (fst Sample.alice_json)
                      (snd Sample.alice_json) "NGINX" (Some "s1") None))).
Proof.
  apply (@fallback_is_keyword_search (fst Sample.alice_json)
           (snd Sample.alice_json) "NGINX" (Some "s1") None).
  - reflexivity.
  - intros s [= <-] _. reflexivity.
  - left. reflexivity.
Defined.

(** ** The context prompt *)

Lemma len_app (a b : string) : len (a ++ b) = len a + len b.
Proof.
  unfold len. induction a as [|c a IH]; simpl String.length.
  - reflexivity.
  - rewrite !Nat2Z.inj_succ. change (a ++ b) with (String.append a b) in IH.
    simpl. lia.
Qed.

Lemma append_blocks_bound (maxLength : Z) (ms : list MemorySearchResult) :
  forall (ctx : string) (cur : Z),
    cur = len ctx ->
    len (append_blocks maxLength ms ctx cur) <= Z.max maxLength cur.
Proof.
  induction ms as [|m rest IH]; intros ctx cur Hc; simpl.
  - lia.
  - destruct (Z.gtb_spec (cur + len (addition m)) maxLength).
    + lia.
    + specialize (IH (ctx ++ addition m) (cur + len (addition m))).
      rewrite len_app in IH. specialize (IH ltac:(lia)). lia.
Qed.

Lemma len_prompt_header : len prompt_header = 50.
Proof. reflexivity. Qed.

(** The prompt is never longer than the larger of the maximum and the
    50 characters of the heading, and it is empty when the search finds
    nothing. *)
Lemma buildContextPrompt_bound (mgr : Manager) (w : World) (msg : string)
    (sid : option string) (maxLength : option Z) :
  len (fst (buildContextPrompt mgr w msg sid maxLength)) <=
    Z.max (default 2000 maxLength) 50 /\
  (snd (fst (searchRelevantMemories mgr w msg sid (Some 3))) = [] ->
   fst (buildContextPrompt mgr w msg sid maxLength) = "").
Proof.
  unfold buildContextPrompt.
  destruct (searchRelevantMemories mgr w msg sid (Some 3)) as [[p rs] w1].
  destruct rs as [|r rs]; cbn [fst snd].
  - split; [change (len "") with 0; lia | reflexivity].
  - split; [|discriminate].
    rewrite <- len_prompt_header. now apply append_blocks_bound.
Qed.

(** C5, with one stored record that the query finds and a maximum of 10
    characters: the prompt is the heading alone, 50 characters long. *)
Theorem buildContextPrompt_exceeds_small_maxLength :
  fst (buildContextPrompt (fst Sample.alice_json) (snd Sample.alice_json)
         "nginx" None (Some 10)) = prompt_header /\
  len prompt_header = 50 /\
  10 < len (fst (buildContextPrompt (fst Sample.alice_json)
                   (snd Sample.alice_json) "nginx" None (Some 10))).
Proof. repeat split. Qed.

(** ** The vector path *)

Lemma In_insert_row (r x : Chroma.row) (rs : list Chroma.row) :
  In x (Chroma.insert_row r rs) -> x = r \/ In x rs.
Proof.
  induction rs as [|r' rest IH]; simpl.
  - intros [H|[]]; auto.
  - destruct (Qle_bool _ _); simpl.
    + intros [H|[H|H]]; auto.
    + intros [H|H]; auto. destruct (IH H); auto.
Qed.

Lemma In_rank (x : Chroma.row) (rs : list Chroma.row) :
  In x (Chroma.rank rs) -> In x rs.
Proof.
  induction rs as [|r rest IH]; simpl; [auto|].
  intros H. apply In_insert_row in H as [H|H]; auto.
Qed.

(** Every row of a query result satisfies the filter of the query. *)
Lemma query_rows_match (s s' : Chroma.Service) (q : string) (n : Z)
    (wh : Chroma.where_filter) (rows : list Chroma.row) :
  Chroma.query s q n wh = (Ret rows, s') ->
  forall r, In r rows -> Chroma.matches wh (Chroma.row_metadata r) = true.
Proof.
  unfold Chroma.query.
  destruct (Chroma.reached s); [|discriminate].
  destruct (Chroma.stored s) as [l|]; [|discriminate].
  intros [= <- _] r Hr.
  apply In_firstn, In_rank in Hr.
  apply in_map_iff in Hr as (e & <- & He).
  apply filter_In in He. exact (proj2 He).
Qed.

Lemma query_logged (s : Chroma.Service) (q : string) (n : Z)
    (wh : Chroma.where_filter) :
  Chroma.log (snd (Chroma.query s q n wh)) =
  (Chroma.log s ++ [Chroma.Query q n wh])%list.
Proof.
  unfold Chroma.query.
  destruct (Chroma.reached s), (Chroma.stored s); reflexivity.
Qed.

Lemma metaval_eqb_MStr (x : Chroma.metaval) (s : string) :
  Chroma.metaval_eqb x (Chroma.MStr s) = true -> x = Chroma.MStr s.
Proof.
  destruct x; simpl; try discriminate.
  intros H. apply String.eqb_eq in H. now subst.
Qed.

Lemma matches_visibility (e : Env) (sid : option string)
    (m : Chroma.metadata) :
  Chroma.matches (search_where e sid) m = true ->
  lookup "visibility" m = Some (Chroma.MStr "team") \/
  lookup "visibility" m = Some (Chroma.MStr "public").
Proof.
  unfold Chroma.matches, search_where.
  rewrite !forallb_app. intros H.
  apply andb_prop in H as [_ H]. apply andb_prop in H as [_ H].
  simpl in H. rewrite andb_true_r in H.
  destruct (lookup "visibility" m) as [x|]; [|discriminate].
  simpl in H. rewrite orb_false_r in H.
  apply orb_prop in H as [H|H]; apply metaval_eqb_MStr in H; subst; auto.
Qed.

(** C1.  A search by a manager that has its client and its collection
    sends one query, whose filter holds: visibility among team and
    public; the session, exactly when a session is given; the team,
    exactly when the environment names one, which the active context
    then supplies.  Every result that comes back on the vector path has
    the visibility team or public, and none is private. *)
Theorem vector_search_excludes_private :
  forall (mgr : Manager) (w : World) (q : string) (sid : option string)
         (limit : option Z),
    client mgr <> None -> collection mgr <> None ->
    Chroma.log (chroma (snd (searchRelevantMemories mgr w q sid limit))) =
      (Chroma.log (chroma w) ++
       [Chroma.Query q (default 5 limit) (search_where (env w) sid)])%list /\
    lookup "visibility" (search_where (env w) sid) =
      Some (Chroma.OneOf [Chroma.MStr "team"; Chroma.MStr "public"]) /\
    lookup "sessionId" (search_where (env w) sid) =
      (if truthy sid
       then Some (Chroma.Equals (Chroma.MStr (or_lit sid "")))
       else None) /\
    lookup "teamId" (search_where (env w) sid) =
      (if truthy (MCP_TEAM_ID (env w))
       then Some (Chroma.Equals (Chroma.MStr (or_lit (MCP_TEAM_ID (env w)) "")))
       else None) /\
    (lookup "teamId" (search_where (env w) sid) <> None ->
     truthy (active_teamId w) = true) /\
    (fst (fst (searchRelevantMemories mgr w q sid limit)) = VectorSearch ->
     forall r, In r (snd (fst (searchRelevantMemories mgr w q sid limit))) ->
       (lookup "visibility" (metadata r) = Some (Chroma.MStr "team") \/
        lookup "visibility" (metadata r) = Some (Chroma.MStr "public")) /\
       lookup "visibility" (metadata r) <> Some (Chroma.MStr "private")).
Proof.
  intros mgr w q sid limit Hc Hk.
  assert (Wv : lookup "visibility" (search_where (env w) sid) =
               Some (Chroma.OneOf [Chroma.MStr "team"; Chroma.MStr "public"])).
  { unfold search_where.
    destruct (truthy sid), (truthy (MCP_TEAM_ID (env w))); reflexivity. }
  assert (Ws : lookup "sessionId" (search_where (env w) sid) =
               if truthy sid
               then Some (Chroma.Equals (Chroma.MStr (or_lit sid "")))
               else None).
  { unfold search_where.
    destruct (truthy sid), (truthy (MCP_TEAM_ID (env w))); reflexivity. }
  assert (Wt : lookup "teamId" (search_where (env w) sid) =
               if truthy (MCP_TEAM_ID (env w))
               then Some (Chroma.Equals
                            (Chroma.MStr (or_lit (MCP_TEAM_ID (env w)) "")))
               else None).
  { unfold search_where.
    destruct (truthy sid), (truthy (MCP_TEAM_ID (env w))); reflexivity. }
  assert (Wa : lookup "teamId" (search_where (env w) sid) <> None ->
               truthy (active_teamId w) = true).
  { rewrite Wt. unfold active_teamId, or_else.
    destruct (truthy (MCP_TEAM_ID (env w))) eqn:T; [|congruence].
    intros _. now destruct (truthy (RequestContext.teamId (rc w))) eqn:R. }
  unfold searchRelevantMemories.
  destruct (collection mgr) as [h|]; [|congruence].
  destruct (client mgr) as [c|]; [|congruence].
  pose proof (query_logged (chroma w) q (default 5 limit)
                (search_where (env w) sid)) as L.
  pose proof (@query_rows_match (chroma w)) as M.
  destruct (Chroma.query (chroma w) q (default 5 limit)
              (search_where (env w) sid)) as [[[|r0 rows]|] s1] eqn:Q;
    simpl in L; cbn [fst snd chroma set_chroma];
    (split; [exact L|]); repeat (split; [assumption|]);
    try discriminate.
  intros _ r Hr. apply in_map_iff in Hr as (row & <- & Hrow).
  specialize (M _ _ _ _ _ Q row Hrow).
  apply matches_visibility in M. split; [exact M|].
  simpl. destruct M as [M|M]; rewrite M; discriminate.
Qed.

Lemma vector_search_excludes_private_witness :
  Chroma.log (chroma (snd (searchRelevantMemories (fst Sample.indexed)
                             (snd Sample.indexed) "nginx" None None))) =
    (Chroma.log (chroma (snd Sample.indexed)) ++
     [Chroma.Query "nginx" 5
        [("teamId", Chroma.Equals (Chroma.MStr "core"));
         ("visibility",
          Chroma.OneOf [Chroma.MStr "team"; Chroma.MStr "public"])]])%list /\
  fst (fst (searchRelevantMemories (fst Sample.indexed) (snd Sample.indexed)
              "nginx" None None)) = VectorSearch /\
  map content (snd (fst (searchRelevantMemories (fst Sample.indexed)
                           (snd Sample.indexed) "nginx" None None))) =
    [item_document Sample.nginx] /\
  forall r,
    In r (snd (fst (searchRelevantMemories (fst Sample.indexed)
                      (snd Sample.indexed) "nginx" None None))) ->
    lookup "visibility" (metadata r) <> Some (Chroma.MStr "private").
Proof.
  destruct (@vector_search_excludes_private (fst Sample.indexed)
              (snd Sample.indexed) "nginx" None None)
    as (L & _ & _ & _ & _ & V); try discriminate.
  split; [exact L|]. split; [reflexivity|]. split; [reflexivity|].
  intros r Hr. exact (proj2 (V eq_refl r Hr)).
Defined.

(** ** Degraded mode *)

Lemma storeConversationToJson_chroma (w : World) (m : ConversationMemory) :
  chroma (snd (storeConversationToJson w m)) = chroma w.
Proof.
  unfold storeConversationToJson.
  destruct (mkdir _ _) as [[?|] d1]; [|reflexivity].
  destruct (push _ _) as [data|]; [|reflexivity].
  destruct (writeFile _ _ _ _) as [[?|] d2]; reflexivity.
Qed.

(** C8.  When the client could not be built, or the collection can be
    neither fetched nor created, [initialize] returns with the client
    and the collection cleared and the manager initialised.  From then
    on a store returns true without a call to the vector service, the
    memory directory being what the JSON step made of it, and a search
    is answered by the JSON search, again without a call. *)
Theorem failed_provisioning_degrades_to_json_only :
  forall (client_built : bool) (w : World),
    client_built = false \/ fst (provision (chroma w)) = Thrown ->
    let mgr1 := fst (initialize (new_manager client_built) w) in
    client mgr1 = None /\ collection mgr1 = None /\ initialized mgr1 = true /\
    (forall (w2 : World) (m : ConversationMemory),
        fst (storeConversation mgr1 w2 m) = (true, mgr1) /\
        snd (storeConversation mgr1 w2 m) =
          (if disableJson (env w2) then w2
           else snd (storeConversationToJson w2
                       (with_owner m (resolve_userId w2 m)
                          (resolve_teamId w2 m)
                          (default Team (visibility m))))) /\
        Chroma.log (chroma (snd (storeConversation mgr1 w2 m))) =
          Chroma.log (chroma w2)) /\
    (forall (w2 : World) (q : string) (sid : option string)
            (limit : option Z),
        searchRelevantMemories mgr1 w2 q sid limit =
          (JsonFallback, searchJsonMemories w2 q sid limit, w2)).
Proof.
  intros client_built w H mgr1.
  assert (E : mgr1 = json_only).
  { unfold mgr1, initialize, new_manager. simpl.
    destruct (mkdir_root (disk w)) as [[?|] d1]; [|reflexivity].
    destruct client_built; simpl.
    - destruct H as [H|H]; [discriminate|].
      destruct (provision (chroma w)) as [[h|] s1]; [discriminate|reflexivity].
    - reflexivity. }
  rewrite E. repeat (split; [reflexivity|]).
  split; [|reflexivity].
  intros w2 m.
  assert (S : storeConversation json_only w2 m =
              (true, json_only,
               if disableJson (env w2) then w2
               else snd (storeConversationToJson w2
                           (with_owner m (resolve_userId w2 m)
                              (resolve_teamId w2 m)
                              (default Team (visibility m)))))).
  { unfold storeConversation. simpl.
    now destruct (is_private _ && jsonOnlyPrivate _). }
  rewrite S. repeat (split; [reflexivity|]). simpl.
  destruct (disableJson (env w2)); [reflexivity|].
  now rewrite storeConversationToJson_chroma.
Qed.

Lemma failed_provisioning_degrades_to_json_only_witness :
  let mgr1 := fst (initialize (new_manager true) (Sample.fresh Sample.env_alice false)) in
  client mgr1 = None /\ collection mgr1 = None /\ initialized mgr1 = true /\
  (forall (w2 : World) (m : ConversationMemory),
      fst (storeConversation mgr1 w2 m) = (true, mgr1) /\
      snd (storeConversation mgr1 w2 m) =
        (if disableJson (env w2) then w2
         else snd (storeConversationToJson w2
                     (with_owner m (resolve_userId w2 m)
                        (resolve_teamId w2 m)
                        (default Team (visibility m))))) /\
      Chroma.log (chroma (snd (storeConversation mgr1 w2 m))) =
        Chroma.log (chroma w2)) /\
  (forall (w2 : World) (q : string) (sid : option string)
          (limit : option Z),
      searchRelevantMemories mgr1 w2 q sid limit =
        (JsonFallback, searchJsonMemories w2 q sid limit, w2)).
Proof.
  apply (@failed_provisioning_degrades_to_json_only true
           (Sample.fresh Sample.env_alice false)).
  right. reflexivity.
Defined.

(** ** Bulk reload *)

Lemma reload_memories_adds (l : list elem) :
  forall (s : Chroma.Service) (loaded : Z),
  exists added,
    items (snd (fst (reload_memories s loaded l))) = (items s ++ added)%list /\
    snd (reload_memories s loaded l) = loaded + Z.of_nat (List.length added) /\
    Forall reloaded added.
Proof.
  induction l as [|[m|] rest IH]; intros s loaded; simpl.
  - exists []. rewrite app_nil_r. split; [reflexivity|]. split; [simpl; lia|constructor].
  - set (e := Chroma.mkItem (item_id m) (item_document m) (reload_metadata m)).
    unfold Chroma.add.
    destruct (Chroma.reached s), (Chroma.stored s) as [st|] eqn:St; simpl;
      try (exists []; rewrite app_nil_r;
           split; [reflexivity|]; split; [simpl; lia|constructor]).
    destruct (IH (Chroma.set_stored (Chroma.logged s (Chroma.Add e))
                    (st ++ [e])%list) (loaded + 1))
      as (added & Hi & Hn & Hf).
    exists (e :: added). rewrite Hi, Hn. split; [|split].
    + unfold items. simpl. rewrite St. simpl. now rewrite <- app_assoc.
    + change (List.length (e :: added)) with (S (List.length added)).
      rewrite Nat2Z.inj_succ. lia.
    + constructor; [now exists m | exact Hf].
  - exists []. rewrite app_nil_r. split; [reflexivity|]. split; [simpl; lia|constructor].
Qed.

Lemma reload_file_adds (d : Disk) (s : Chroma.Service) (loaded errors : Z)
    (filePath : string * string) :
  exists added,
    items (fst (fst (reload_file d (s, loaded, errors) filePath))) =
      (items s ++ added)%list /\
    snd (fst (reload_file d (s, loaded, errors) filePath)) =
      loaded + Z.of_nat (List.length added) /\
    Forall reloaded added.
Proof.
  unfold reload_file.
  assert (N : exists added : list Chroma.item,
             items s = (items s ++ added)%list /\
             loaded = loaded + Z.of_nat (List.length added) /\
             Forall reloaded added).
  { exists []. rewrite app_nil_r. split; [reflexivity|].
    split; [simpl; lia|constructor]. }
  destruct (readFile d (fst filePath) (snd filePath)) as [[|[l|[|? ?]|]]|];
    try exact N.
  destruct (reload_memories_adds l s loaded) as (added & Hi & Hn & Hf).
  exists added.
  destruct (reload_memories s loaded l) as [[[?|] s1] loaded1]; simpl in *;
    auto.
Qed.

Lemma reload_files_adds (d : Disk) (files : list (string * string)) :
  forall (s : Chroma.Service) (loaded errors : Z),
  exists added,
    items (fst (fst (fold_left (reload_file d) files (s, loaded, errors)))) =
      (items s ++ added)%list /\
    snd (fst (fold_left (reload_file d) files (s, loaded, errors))) =
      loaded + Z.of_nat (List.length added) /\
    Forall reloaded added.
Proof.
  induction files as [|f rest IH]; intros s loaded errors; cbn [fold_left].
  - exists []. rewrite app_nil_r. split; [reflexivity|].
    split; [simpl; lia|constructor].
  - destruct (reload_file_adds d s loaded errors f) as (a1 & Hi1 & Hn1 & Hf1).
    destruct (reload_file d (s, loaded, errors) f) as [[s1 l1] e1].
    simpl in Hi1, Hn1.
    destruct (IH s1 l1 e1) as (a2 & Hi2 & Hn2 & Hf2).
    exists (a1 ++ a2)%list. rewrite Hi2, Hn2, Hi1, Hn1.
    rewrite <- app_assoc, length_app, Nat2Z.inj_add.
    split; [reflexivity|]. split; [lia|]. apply Forall_app. auto.
Qed.

(** A reloaded item fails the filter of every search. *)
Lemma reloaded_never_matches (m : ConversationMemory) (e : Env)
    (sid : option string) :
  Chroma.matches (search_where e sid) (reload_metadata m) = false.
Proof.
  unfold Chroma.matches, search_where. rewrite !forallb_app.
  simpl. now rewrite !andb_false_r.
Qed.

Lemma store_metadata_owner (e : Env) (m : ConversationMemory)
    (u t : string) (v : Visibility) :
  lookup "userId" (store_metadata e m u t v) = Some (Chroma.MStr u) /\
  lookup "teamId" (store_metadata e m u t v) = Some (Chroma.MStr t) /\
  lookup "visibility" (store_metadata e m u t v) =
    Some (Chroma.MStr (visibility_text v)).
Proof. repeat split. Qed.

(** The store operation, for a record that is not kept JSON-only, sends
    the item with the metadata of [store_metadata]. *)
Lemma storeConversation_indexes (mgr : Manager) (w : World)
    (m : ConversationMemory) :
  initialized mgr = true -> client mgr <> None -> collection mgr <> None ->
  is_private (default Team (visibility m)) && jsonOnlyPrivate (env w) = false ->
  Chroma.log (chroma (snd (storeConversation mgr w m))) =
  (Chroma.log (chroma w) ++
   [Chroma.Add (Chroma.mkItem (item_id m) (item_document m)
                  (store_metadata (env w) m (resolve_userId w m)
                     (resolve_teamId w m) (default Team (visibility m))))])%list.
Proof.
  intros Hi Hc Hk Hp. unfold storeConversation. rewrite Hi, Hp.
  destruct (client mgr); [|congruence].
  destruct (collection mgr); [|congruence].
  set (w1 := if disableJson (env w) then w else _).
  assert (C : chroma w1 = chroma w).
  { unfold w1. destruct (disableJson (env w)); [reflexivity|].
    apply storeConversationToJson_chroma. }
  unfold Chroma.add. rewrite C.
  destruct (Chroma.reached (chroma w)), (Chroma.stored (chroma w));
    reflexivity.
Qed.

(** C10.  The bulk reload adds to the collection one item per record
    it counts as loaded; the metadata of each has the six keys
    sessionId, timestamp, userMessage, assistantResponse, context and
    tags, and no userId, teamId or visibility, so it fails the filter of
    every search.  The store operation, on its side, sends the item with
    userId, teamId and visibility in its metadata. *)
Theorem reloaded_items_lack_owner_and_visibility :
  forall (mgr : Manager) (w : World),
    (exists added,
        items (chroma (snd (reloadAllMemoriesFromJson mgr w))) =
          (items (chroma w) ++ added)%list /\
        fst (fst (reloadAllMemoriesFromJson mgr w)) =
          Z.of_nat (List.length added) /\
        Forall (fun e =>
                  reloaded e /\
                  map fst (Chroma.meta e) = reload_keys /\
                  lookup "userId" (Chroma.meta e) = None /\
                  lookup "teamId" (Chroma.meta e) = None /\
                  lookup "visibility" (Chroma.meta e) = None /\
                  forall (e' : Env) (sid : option string),
                    Chroma.matches (search_where e' sid) (Chroma.meta e) = false)
               added) /\
    (forall (mgr' : Manager) (w' : World) (m : ConversationMemory),
        initialized mgr' = true ->
        client mgr' <> None -> collection mgr' <> None ->
        is_private (default Team (visibility m)) &&
          jsonOnlyPrivate (env w') = false ->
        exists md,
          Chroma.log (chroma (snd (storeConversation mgr' w' m))) =
            (Chroma.log (chroma w') ++
             [Chroma.Add (Chroma.mkItem (item_id m) (item_document m) md)])%list /\
          lookup "userId" md = Some (Chroma.MStr (resolve_userId w' m)) /\
          lookup "teamId" md = Some (Chroma.MStr (resolve_teamId w' m)) /\
          lookup "visibility" md =
            Some (Chroma.MStr (visibility_text (default Team (visibility m))))).
Proof.
  intros mgr w. split.
  - assert (P : forall e, reloaded e ->
                  reloaded e /\
                  map fst (Chroma.meta e) = reload_keys /\
                  lookup "userId" (Chroma.meta e) = None /\
                  lookup "teamId" (Chroma.meta e) = None /\
                  lookup "visibility" (Chroma.meta e) = None /\
                  forall (e' : Env) (sid : option string),
                    Chroma.matches (search_where e' sid) (Chroma.meta e) = false).
    { intros e He. split; [exact He|]. destruct He as [m ->].
      repeat (split; [reflexivity|]).
      intros e' sid. apply reloaded_never_matches. }
    unfold reloadAllMemoriesFromJson.
    destruct (collection mgr).
    + destruct (reload_files_adds (disk w) (sessionFiles (disk w))
                  (chroma w) 0 0) as (added & Hi & Hn & Hf).
      destruct (fold_left (reload_file (disk w)) (sessionFiles (disk w))
                  (chroma w, 0, 0)) as [[s loaded] errors].
      simpl in *. exists added. split; [exact Hi|]. split; [lia|].
      eapply Forall_impl; [exact P | exact Hf].
    + exists []. simpl. rewrite app_nil_r. repeat split. constructor.
  - intros mgr' w' m Hi Hc Hk Hp.
    exists (store_metadata (env w') m (resolve_userId w' m)
              (resolve_teamId w' m) (default Team (visibility m))).
    split; [now apply storeConversation_indexes|].
    apply store_metadata_owner.
Qed.

(** The log of alice is reloaded into an empty collection: one record
    is loaded, and the search that follows still gets no row from the
    vector query and answers from the JSON files. *)
Example reloaded_record_is_not_found_by_vector_search :
  let mgr := fst Sample.recovered in
  let w1 := snd (reloadAllMemoriesFromJson mgr (snd Sample.recovered)) in
  fst (reloadAllMemoriesFromJson mgr (snd Sample.recovered)) = (1, 0) /\
  map Chroma.id (items (chroma w1)) = ["s1_1700000000000"] /\
  fst (Chroma.query (chroma w1) "nginx" 5 (search_where (env w1) None)) =
    Ret [] /\
  fst (fst (searchRelevantMemories mgr w1 "nginx" None None)) = JsonFallback.
Proof. repeat split. Qed.

(** ** Examples *)

Example endsWith_json : endsWith ".json" "s1.json" = true.
Proof. reflexivity. Qed.

Example replace_first_json : replace ".json" "" "a.json.json" = "a.json".
Proof. reflexivity. Qed.

Example toLowerCase_ascii :
  toLowerCase "Fix NGINX-config 42" = "fix nginx-config 42".
Proof. reflexivity. Qed.

(** A capital of the Latin-1 supplement is folded (U+00C9 to U+00E9);
    the multiplication sign U+00D7 and the sharp s U+00DF stay. *)
Example toLowerCase_latin1 :
  toLowerCase (String (ascii_of_N 201) (String (ascii_of_N 215)
                 (String (ascii_of_N 223) "X"))) =
  String (ascii_of_N 233) (String (ascii_of_N 215)
    (String (ascii_of_N 223) "x")).
Proof. reflexivity. Qed.

(** Names that are no single path component, and one that is. *)
Example component_names :
  map component [ "s1.json"; "alice"; "."; ".."; ""; "../bob/s1.json";
                  "newdir/s1.json"; "alice/s1.json" ] =
  [ true; true; false; false; false; false; false; false ].
Proof. reflexivity. Qed.

Example sanitize_mail : sanitize "john@corp.com" = "john_corp.com".
Proof. reflexivity. Qed.

Example num_to_string_ts : num_to_string 1700000000123 = "1700000000123".
Proof. reflexivity. Qed.

Example slice0_negative : slice0 [1; 2; 3] (-1) = [1; 2].
Proof. reflexivity. Qed.

(** The scenario of the specification: a team record about nginx is
    stored, and the search for nginx in its session returns exactly that
    record. *)
Example nginx_scenario :
  map content (snd (fst (searchRelevantMemories (fst Sample.indexed)
                           (snd Sample.indexed) "nginx" (Some "s1") None))) =
  [item_document Sample.nginx].
Proof. reflexivity. Qed.

(** A record stored under a user name that the sanitiser rewrites is
    written to one directory and searched for in another. *)
Example sanitised_directory_is_not_read :
  let w := mkWorld (mkDisk None true) (Sample.service false)
                   RequestContext.initial
                   (mkEnv (Some "john@corp.com") None None None None) in
  let w1 := snd (storeConversation json_only w Sample.nginx) in
  map fst (top (disk w1)) = ["john_corp.com"] /\
  reader_userId w1 = "john@corp.com" /\
  searchJsonMemories w1 "nginx" None None = [] /\
  listSessions w1 = [].
Proof. repeat split. Qed.

(** The fallback scenario of the specification: with the vector service
    out of reach, the search for docker returns, with the placeholder
    distance, the record whose user message mentions Docker. *)
Example docker_scenario :
  let st := Sample.store_all (new_manager true)
              (Sample.fresh Sample.env_alice false) [Sample.docker] in
  fst (searchRelevantMemories (fst st) (snd st) "docker" None None) =
  (JsonFallback,
   [mkResult (item_document Sample.docker)
      [ ("sessionId", Chroma.MStr "s1");
        ("timestamp", Chroma.MNum 1700000000500);
        ("tags", Chroma.MArr ["docker"]);
        ("context", Chroma.MArr []) ]
      (1 # 2)]).
Proof. reflexivity. Qed.

(** * Further properties *)

(** ** Strings *)

Lemma map_chars_app (f : ascii -> ascii) (a b : string) :
  map_chars f (a ++ b) = map_chars f a ++ map_chars f b.
Proof.
  unfold map_chars. induction a as [|c a IH]; simpl; [reflexivity|].
  now rewrite IH.
Qed.

Lemma map_chars_cons (f : ascii -> ascii) (c : ascii) (s : string) :
  map_chars f (String c s) = String (f c) (map_chars f s).
Proof. reflexivity. Qed.

Lemma lower_char_idem (c : ascii) : lower_char (lower_char c) = lower_char c.
Proof. destruct c as [[] [] [] [] [] [] [] []]; reflexivity. Qed.

Lemma toLowerCase_idem (s : string) : toLowerCase (toLowerCase s) = toLowerCase s.
Proof.
  unfold toLowerCase. induction s as [|c s IH]; [reflexivity|].
  rewrite !map_chars_cons, IH. now rewrite lower_char_idem.
Qed.

Lemma prefix_app (q a b : string) :
  String.prefix q a = true -> String.prefix q (a ++ b) = true.
Proof.
  revert a; induction q as [|c q IH]; intros a.
  - intros _. now destruct (a ++ b).
  - destruct a as [|d a]; simpl; [discriminate|].
    destruct (ascii_dec c d); [apply IH | discriminate].
Qed.

Lemma includes_cons (q : string) (c : ascii) (s : string) :
  includes q (String c s) = String.prefix q (String c s) || includes q s.
Proof. reflexivity. Qed.

Lemma includes_app_l (q a b : string) :
  includes q a = true -> includes q (a ++ b) = true.
Proof.
  induction a as [|c a IH].
  - simpl. rewrite orb_false_r. destruct q; [|discriminate].
    intros _. now destruct b.
  - change (String c a ++ b) with (String c (a ++ b)).
    rewrite !includes_cons. intros H. apply orb_prop in H as [H|H].
    + change (String c (a ++ b)) with (String c a ++ b).
      now rewrite (prefix_app _ _ b H).
    + rewrite (IH H). apply orb_true_r.
Qed.

Lemma includes_app_r (q a b : string) :
  includes q b = true -> includes q (a ++ b) = true.
Proof.
  intros H. induction a as [|c a IH]; [exact H|].
  change (String c a ++ b) with (String c (a ++ b)).
  rewrite includes_cons, IH. apply orb_true_r.
Qed.

Lemma prefix_self (q : string) : String.prefix q q = true.
Proof.
  induction q as [|c q IH]; simpl; [reflexivity|].
  destruct (ascii_dec c c); [exact IH | congruence].
Qed.

Lemma includes_self (q : string) : includes q q = true.
Proof.
  destruct q as [|c q]; [reflexivity|].
  now rewrite includes_cons, prefix_self.
Qed.

(** ** The REST provisioning client, continued *)

(** X1.  [ensureTenant] and [ensureDatabase] do not look at the
    response: they return for every status, and end in a rejection only
    when the request itself is rejected. *)
Theorem ensureTenant_ensureDatabase_ignore_status :
  forall (c : ChromaRest.t) (fetch : ChromaRest.Request -> exc ChromaRest.Response),
    (forall r,
        fetch (ChromaRest.mkRequest (ChromaRest.base c ++ "/api/v2/tenants")
                 ChromaRest.POST (Some (ChromaRest.tenant c))) = Ret r ->
        ChromaRest.ensureTenant c fetch = ChromaRest.Done) /\
    (forall r,
        fetch (ChromaRest.mkRequest
                 (ChromaRest.base c ++ "/api/v2/tenants/" ++
                  ChromaRest.tenant c ++ "/databases")
                 ChromaRest.POST (Some (ChromaRest.database c))) = Ret r ->
        ChromaRest.ensureDatabase c fetch = ChromaRest.Done) /\
    (ChromaRest.ensureTenant c fetch <> ChromaRest.Done ->
     ChromaRest.ensureTenant c fetch = ChromaRest.Rejected) /\
    (ChromaRest.ensureDatabase c fetch <> ChromaRest.Done ->
     ChromaRest.ensureDatabase c fetch = ChromaRest.Rejected).
Proof.
  intros c fetch. unfold ChromaRest.ensureTenant, ChromaRest.ensureDatabase.
  repeat split.
  - intros r H. now rewrite H.
  - intros r H. now rewrite H.
  - destruct (fetch _); [congruence | reflexivity].
  - destruct (fetch _); [congruence | reflexivity].
Qed.

(** X2.  [getCollection] returns a value only for the status 200 and a
    body that [r.json ()] accepts; for every other status it throws the
    error that names the collection and the status. *)
Theorem getCollection_requires_200 :
  forall (A : Type) (c : ChromaRest.t)
         (fetch : ChromaRest.Request -> exc ChromaRest.Response)
         (json : string -> exc A) (name : string) (r : ChromaRest.Response),
    fetch (ChromaRest.mkRequest
             (ChromaRest.td c ("/collections/" ++
                               ChromaRest.encodeURIComponent name))
             ChromaRest.GET None) = Ret r ->
    (ChromaRest.status r <> 200 ->
     ChromaRest.getCollection c fetch json name =
     ChromaRest.Fails ("getCollection(" ++ name ++ ") -> " ++
                       num_to_string (ChromaRest.status r))) /\
    (forall v, ChromaRest.getCollection c fetch json name = ChromaRest.Value v ->
               ChromaRest.status r = 200 /\
               exists t, ChromaRest.text r = Ret t /\ json t = Ret v).
Proof.
  intros A c fetch json name r H. unfold ChromaRest.getCollection.
  rewrite H. destruct (Z.eqb_spec (ChromaRest.status r) 200) as [E|N]; simpl.
  - split; [congruence|]. intros v Hv. split; [exact E|].
    destruct (ChromaRest.text r) as [t|]; [|discriminate].
    exists t. split; [reflexivity|].
    destruct (json t); [now injection Hv as -> | discriminate].
  - split; [reflexivity | discriminate].
Qed.

Lemma getCollection_requires_200_witness :
  (404 <> 200 ->
   ChromaRest.getCollection Sample.rest (Sample.ok_reply 404)
     (fun t : string => Ret t) "a b" =
   ChromaRest.Fails ("getCollection(a b) -> 404")) /\
  (forall v,
      ChromaRest.getCollection Sample.rest (Sample.ok_reply 404)
        (fun t : string => Ret t) "a b" = ChromaRest.Value v ->
      404 = 200 /\ exists t, Ret "{}" = Ret t /\ Ret t = Ret v).
Proof.
  apply (@getCollection_requires_200 string Sample.rest (Sample.ok_reply 404)
           (fun t => Ret t) "a b" (ChromaRest.mkResponse 404 (Ret "{}"))).
  reflexivity.
Defined.

Lemma encode_unit_safe (c : ascii) :
  forallb uri_safe (list_ascii_of_string (ChromaRest.encode_unit c)) = true.
Proof. destruct c as [[] [] [] [] [] [] [] []]; reflexivity. Qed.

Lemma encode_unit_unreserved (c : ascii) :
  ChromaRest.uri_unreserved c = true ->
  ChromaRest.encode_unit c = String c EmptyString.
Proof. unfold ChromaRest.encode_unit. now intros ->. Qed.

Lemma list_ascii_app (a b : string) :
  list_ascii_of_string (a ++ b) =
  (list_ascii_of_string a ++ list_ascii_of_string b)%list.
Proof. induction a as [|c a IH]; simpl; [reflexivity | now rewrite IH]. Qed.

(** The collection name in the URL of [getCollection] is escaped:
    the escaped name holds only unreserved characters and percent
    signs (so no slash, question mark or hash), and a name of
    unreserved characters is left as it is. *)
Theorem encodeURIComponent_escapes :
  forall s : string,
    forallb uri_safe (list_ascii_of_string (ChromaRest.encodeURIComponent s))
      = true /\
    (forallb ChromaRest.uri_unreserved (list_ascii_of_string s) = true ->
     ChromaRest.encodeURIComponent s = s).
Proof.
  induction s as [|c s [IH1 IH2]]; simpl.
  - auto.
  - split.
    + rewrite list_ascii_app, forallb_app, encode_unit_safe. exact IH1.
    + intros H. apply andb_prop in H as [Hc Hs].
      rewrite (encode_unit_unreserved _ Hc), (IH2 Hs). reflexivity.
Qed.

Lemma strip_slash_app (b : string) : ChromaRest.strip_slash (b ++ "/") = b.
Proof.
  induction b as [|c b IH]; [reflexivity|].
  change (String c b ++ "/") with (String c (b ++ "/")).
  destruct b as [|d b]; [reflexivity|].
  change (ChromaRest.strip_slash (String c (String d b ++ "/")))
    with (String c (ChromaRest.strip_slash (String d b ++ "/"))).
  now rewrite IH.
Qed.

Lemma strip_slash_none (b : string) :
  endsWith "/" b = false -> ChromaRest.strip_slash b = b.
Proof.
  induction b as [|c b IH]; [reflexivity|].
  destruct b as [|d b].
  - simpl. destruct (Ascii.eqb_spec c "/") as [->|N]; [discriminate|].
    reflexivity.
  - intros H.
    change (ChromaRest.strip_slash (String c (String d b)))
      with (String c (ChromaRest.strip_slash (String d b))).
    rewrite IH; [reflexivity|].
    change (endsWith "/" (String c (String d b)))
      with (String.eqb "/" (String c (String d b)) || endsWith "/" (String d b))
      in H.
    now apply orb_false_elim in H.
Qed.

(** X3.  The constructor removes one trailing slash of the base URL,
    so that a base given with or without it addresses the same URLs. *)
Theorem new_strips_one_trailing_slash :
  forall (b : string) (tn db : option string) (path : string),
    endsWith "/" b = false ->
    ChromaRest.base (ChromaRest.new (ChromaRest.mkOptions (b ++ "/") tn db)) = b /\
    ChromaRest.td (ChromaRest.new (ChromaRest.mkOptions (b ++ "/") tn db)) path =
    ChromaRest.td (ChromaRest.new (ChromaRest.mkOptions b tn db)) path.
Proof.
  intros b tn db path H.
  unfold ChromaRest.td, ChromaRest.new. simpl.
  now rewrite strip_slash_app, (strip_slash_none _ H).
Qed.

Lemma new_strips_one_trailing_slash_witness :
  ChromaRest.base (ChromaRest.new
    (ChromaRest.mkOptions ("http://chroma-svc:8000" ++ "/") None None)) =
    "http://chroma-svc:8000" /\
  ChromaRest.td (ChromaRest.new
    (ChromaRest.mkOptions ("http://chroma-svc:8000" ++ "/") None None))
    "/collections" =
  ChromaRest.td (ChromaRest.new
    (ChromaRest.mkOptions "http://chroma-svc:8000" None None)) "/collections".
Proof.
  apply (@new_strips_one_trailing_slash "http://chroma-svc:8000" None None
           "/collections").
  reflexivity.
Defined.

(** ** Tag extraction *)

Lemma NoDup_commonTags : NoDup commonTags.
Proof.
  unfold commonTags.
  repeat (constructor; [simpl; intuition discriminate|]). constructor.
Qed.

Lemma extractTags_ignores_case (text : string) :
  extractTags (toLowerCase text) = extractTags text.
Proof. unfold extractTags. now rewrite toLowerCase_idem. Qed.

(** X4.  [extractTags] returns, in the order of the fixed list and
    without repetition, exactly the known tags that occur in the
    lower-cased text; the case of the ASCII letters of the text does not
    matter, and a tag is found wherever its letters occur, inside a
    longer word too. *)
Theorem extractTags_known_tags_once :
  forall text : string,
    NoDup (extractTags text) /\
    (forall tag, In tag (extractTags text) <->
                 In tag commonTags /\
                 includes tag (toLowerCase text) = true) /\
    extractTags (toLowerCase text) = extractTags text /\
    (forall before after tag,
        In tag commonTags ->
        toLowerCase text = before ++ tag ++ after ->
        In tag (extractTags text)).
Proof.
  intros text. split; [|split; [|split]].
  - apply NoDup_filter, NoDup_commonTags.
  - intros tag. unfold extractTags. cbv zeta. rewrite filter_In. reflexivity.
  - apply extractTags_ignores_case.
  - intros before after tag Hin E. unfold extractTags. cbv zeta.
    apply filter_In. split; [exact Hin|]. rewrite E.
    apply includes_app_r, includes_app_l, includes_self.
Qed.

(** X5.  Every tag found in a text is found in any text that contains
    it as its beginning or its end, as in the combined text of the
    store handler. *)
Theorem extractTags_monotone :
  forall a b : string,
    incl (extractTags a) (extractTags (a ++ b)) /\
    incl (extractTags b) (extractTags (a ++ b)).
Proof.
  intros a b. unfold extractTags, toLowerCase.
  rewrite map_chars_app.
  split; intros tag H; apply filter_In in H as [Hin Hinc];
    apply filter_In; split; try exact Hin.
  - now apply includes_app_l.
  - now apply includes_app_r.
Qed.

(** ** The manager, continued *)

Lemma initialize_initialized (mgr : Manager) (w : World) :
  initialized (fst (initialize mgr w)) = true.
Proof.
  unfold initialize. destruct (initialized mgr) eqn:E; [exact E|].
  destruct (mkdir_root (disk w)) as [[?|] d1]; [|reflexivity].
  destruct (client mgr); [|reflexivity].
  destruct (provision (chroma w)) as [[?|] s1]; reflexivity.
Qed.

Lemma storeConversation_manager (mgr : Manager) (w : World)
    (m : ConversationMemory) :
  initialized mgr = true -> snd (fst (storeConversation mgr w m)) = mgr.
Proof.
  intros H. unfold storeConversation. rewrite H.
  destruct (is_private _ && jsonOnlyPrivate _); [reflexivity|].
  destruct (client mgr), (collection mgr); try reflexivity.
  destruct (Chroma.add _ _) as [[?|] ?]; reflexivity.
Qed.

(** X6.  Initialisation happens once.  After [initialize] has run, a
    further call returns at once, and [storeConversation] hands back
    the same manager: a manager that fell back to JSON-only mode stays
    there, whatever the vector service does later. *)
Theorem initialize_runs_once :
  forall (mgr : Manager) (w w2 : World) (m : ConversationMemory),
    initialize (fst (initialize mgr w)) w2 = (fst (initialize mgr w), w2) /\
    snd (fst (storeConversation (fst (initialize mgr w)) w2 m)) =
      fst (initialize mgr w).
Proof.
  intros mgr w w2 m. pose proof (initialize_initialized mgr w) as H. split.
  - unfold initialize at 1. now rewrite H.
  - now apply storeConversation_manager.
Qed.

(** X7.  After the first initialisation of a new manager, [isAvailable]
    holds exactly when the client was built, the memory directory could
    be made, and the collection could be fetched or created. *)
Theorem isAvailable_after_initialize :
  forall (client_built : bool) (w : World),
    isAvailable (fst (initialize (new_manager client_built) w)) = true <->
    client_built = true /\
    fst (mkdir_root (disk w)) = Ret tt /\
    fst (provision (chroma w)) = Ret Handle.
Proof.
  intros b w. unfold initialize, new_manager, isAvailable. simpl.
  destruct (mkdir_root (disk w)) as [[[]|] d1]; simpl.
  - destruct b; simpl.
    + destruct (provision (chroma w)) as [[[]|] s1]; simpl; intuition congruence.
    + intuition congruence.
  - intuition congruence.
Qed.

(** X8.  A private record, under the default setting that keeps
    private records in JSON only, causes no call to the vector service:
    [storeConversation] leaves the service, its call log included, as it
    was. *)
Theorem private_record_is_not_indexed :
  forall (mgr : Manager) (w : World) (m : ConversationMemory),
    initialized mgr = true ->
    visibility m = Some Private ->
    jsonOnlyPrivate (env w) = true ->
    chroma (snd (storeConversation mgr w m)) = chroma w.
Proof.
  intros mgr w m Hi Hv Hj. unfold storeConversation.
  rewrite Hi, Hv, Hj. simpl.
  destruct (disableJson (env w)); [reflexivity|].
  apply storeConversationToJson_chroma.
Qed.

Lemma private_record_is_not_indexed_witness :
  chroma (snd (storeConversation (fst Sample.recovered) (snd Sample.recovered)
                 Sample.diary)) = chroma (snd Sample.recovered).
Proof.
  apply (@private_record_is_not_indexed (fst Sample.recovered)
           (snd Sample.recovered) Sample.diary); reflexivity.
Defined.

(** X9.  With JSON persistence disabled, a record that does not go to
    the vector service (a private record kept JSON-only, or any record
    of a manager without client or collection) is stored nowhere:
    [storeConversation] returns true and changes nothing. *)
Theorem record_dropped_when_json_disabled :
  forall (mgr : Manager) (w : World) (m : ConversationMemory),
    initialized mgr = true ->
    disableJson (env w) = true ->
    (visibility m = Some Private /\ jsonOnlyPrivate (env w) = true) \/
    client mgr = None \/ collection mgr = None ->
    storeConversation mgr w m = (true, mgr, w).
Proof.
  intros mgr w m Hi Hd H. unfold storeConversation. rewrite Hi, Hd.
  destruct H as [[Hv Hj]|H].
  - now rewrite Hv, Hj.
  - destruct (is_private _ && jsonOnlyPrivate _); [reflexivity|].
    destruct H as [H|H]; rewrite H; [reflexivity|].
    now destruct (client mgr).
Qed.

Lemma record_dropped_when_json_disabled_witness :
  storeConversation json_only
    (mkWorld (mkDisk None true) (Sample.service false) RequestContext.initial
             (mkEnv (Some "alice") None (Some "TRUE") None None))
    Sample.nginx =
  (true, json_only,
   mkWorld (mkDisk None true) (Sample.service false) RequestContext.initial
           (mkEnv (Some "alice") None (Some "TRUE") None None)).
Proof.
  apply (@record_dropped_when_json_disabled json_only
           (mkWorld (mkDisk None true) (Sample.service false)
                    RequestContext.initial
                    (mkEnv (Some "alice") None (Some "TRUE") None None))
           Sample.nginx).
  - reflexivity.
  - reflexivity.
  - right. left. reflexivity.
Defined.

Lemma initialize_disk (mgr : Manager) (w : World) :
  disk (snd (initialize mgr w)) =
  if initialized mgr then disk w else snd (mkdir_root (disk w)).
Proof.
  unfold initialize. destruct (initialized mgr); [reflexivity|].
  destruct (mkdir_root (disk w)) as [[?|] d1]; [|reflexivity].
  destruct (client mgr); [|reflexivity].
  destruct (provision (chroma w)) as [[?|] s1]; reflexivity.
Qed.

Lemma storeConversationToJson_disk_ext (w1 w2 : World)
    (m : ConversationMemory) :
  disk w1 = disk w2 -> rc w1 = rc w2 -> env w1 = env w2 ->
  disk (snd (storeConversationToJson w1 m)) =
  disk (snd (storeConversationToJson w2 m)).
Proof.
  intros Hd Hr He. unfold storeConversationToJson, userSafe_of.
  rewrite Hd, Hr, He.
  destruct (mkdir (disk w2) _) as [[?|] d1]; [|reflexivity].
  destruct (push _ m) as [data|]; [|reflexivity].
  destruct (writeFile d1 _ _ _) as [[?|] d2]; reflexivity.
Qed.

(** X10.  The memory directory after [storeConversation] does not
    depend on the vector service: with any other state of the service
    (reachable or not, with or without the collection) the same files
    result. *)
Theorem durable_log_independent_of_vector_service :
  forall (mgr : Manager) (w : World) (s' : Chroma.Service)
         (m : ConversationMemory),
    disk (snd (storeConversation mgr w m)) =
    disk (snd (storeConversation mgr (set_chroma w s') m)).
Proof.
  intros mgr w s' m.
  destruct (if initialized mgr then (mgr, w) else initialize mgr w)
    as [mgr1 w1] eqn:E1.
  destruct (if initialized mgr then (mgr, set_chroma w s')
            else initialize mgr (set_chroma w s')) as [mgr2 w2] eqn:E2.
  rewrite (storeConversation_disk _ _ m E1), (storeConversation_disk _ _ m E2).
  destruct (store_prelude _ _ E1) as (Hr1 & He1 & _ & _).
  destruct (store_prelude _ _ E2) as (Hr2 & He2 & _ & _).
  assert (Hd : disk w1 = disk w2).
  { pose proof (initialize_disk mgr w) as D1.
    pose proof (initialize_disk mgr (set_chroma w s')) as D2.
    destruct (initialized mgr).
    - injection E1 as _ <-. injection E2 as _ <-. reflexivity.
    - rewrite E1 in D1. rewrite E2 in D2. simpl in D1, D2. congruence. }
  assert (Hr : rc w1 = rc w2) by (rewrite Hr1, Hr2; reflexivity).
  assert (He : env w1 = env w2) by (rewrite He1, He2; reflexivity).
  unfold resolve_userId, resolve_teamId. rewrite Hr, He.
  destruct (disableJson (env w2)); [exact Hd|].
  now apply storeConversationToJson_disk_ext.
Qed.

Lemma query_rows_length (s : Chroma.Service) (q : string) (n : Z)
    (wh : Chroma.where_filter) (rows : list Chroma.row) :
  fst (Chroma.query s q n wh) = Ret rows ->
  (List.length rows <= Z.to_nat n)%nat.
Proof.
  unfold Chroma.query.
  destruct (Chroma.reached s), (Chroma.stored s); simpl; try discriminate.
  intros [= <-]. apply firstn_le_length.
Qed.

(** The length of the result of a search. *)
Lemma searchRelevantMemories_length :
  forall (mgr : Manager) (w : World) (q : string) (sid : option string)
         (limit : option Z),
    0 <= default 5 limit ->
    Z.of_nat (List.length
                (snd (fst (searchRelevantMemories mgr w q sid limit))))
      <= default 5 limit.
Proof.
  intros mgr w q sid limit Hn.
  assert (F : forall w', Z.of_nat (List.length
                (searchJsonMemories w' q sid limit)) <= default 5 limit).
  { intros w'. rewrite searchJsonMemories_spec.
    unfold keyword_search. now apply truncate_length. }
  unfold searchRelevantMemories.
  destruct (collection mgr), (client mgr); try apply F.
  pose proof (@query_rows_length (chroma w) q (default 5 limit)
                (search_where (env w) sid)) as L.
  destruct (Chroma.query (chroma w) q (default 5 limit)
              (search_where (env w) sid)) as [[[|r rows]|] s1];
    try apply F.
  cbn [fst snd]. rewrite length_map.
  specialize (L _ eq_refl). lia.
Qed.

(** X11.  A search never returns more results than the limit (5 when
    none is given), on the vector path and on the fallback alike. *)
Theorem search_returns_at_most_limit :
  forall (mgr : Manager) (w : World) (q : string) (sid : option string)
         (limit : option Z),
    0 <= default 5 limit ->
    Z.of_nat (List.length
                (snd (fst (searchRelevantMemories mgr w q sid limit))))
      <= default 5 limit.
Proof. exact searchRelevantMemories_length. Qed.

Lemma search_returns_at_most_limit_witness :
  Z.of_nat (List.length
              (snd (fst (searchRelevantMemories (fst Sample.indexed)
                           (snd Sample.indexed) "nginx" None (Some 1)))))
    <= 1.
Proof.
  apply (@search_returns_at_most_limit (fst Sample.indexed)
           (snd Sample.indexed) "nginx" None (Some 1)).
  simpl. lia.
Defined.

(** ** Store, then read *)

Lemma string_app_assoc (a b c : string) : (a ++ b) ++ c = a ++ (b ++ c).
Proof. induction a as [|x a IH]; simpl; [reflexivity | now rewrite IH]. Qed.

Lemma endsWith_app (suf s : string) : endsWith suf (s ++ suf) = true.
Proof.
  induction s as [|c s IH].
  - simpl. destruct suf; simpl; now rewrite ?String.eqb_refl, ?Ascii.eqb_refl.
  - change (String c s ++ suf) with (String c (s ++ suf)).
    change (endsWith suf (String c (s ++ suf)))
      with (String.eqb suf (String c (s ++ suf)) || endsWith suf (s ++ suf)).
    rewrite IH. apply orb_true_r.
Qed.

Lemma replace_unfold (pat rep s : string) :
  replace pat rep s =
  if String.prefix pat s then rep ++ drop (String.length pat) s
  else match s with
       | EmptyString => EmptyString
       | String c s' => String c (replace pat rep s')
       end.
Proof. destruct s; reflexivity. Qed.

Lemma prefix_cons (c d : ascii) (q s : string) :
  String.prefix (String c q) (String d s) = Ascii.eqb c d && String.prefix q s.
Proof.
  simpl. destruct (ascii_dec c d) as [->|N].
  - now rewrite Ascii.eqb_refl.
  - apply Ascii.eqb_neq in N. now rewrite N.
Qed.

Lemma prefix_nil_l (s : string) : String.prefix "" s = true.
Proof. now destruct s. Qed.

Lemma prefix_nil_r (c : ascii) (q : string) :
  String.prefix (String c q) "" = false.
Proof. reflexivity. Qed.

(** The suffix of session files does not overlap itself: it cannot
    start inside a name and end in the suffix that follows. *)
Lemma prefix_json_app (c : ascii) (x : string) :
  String.prefix ".json" (String c x) = false ->
  String.prefix ".json" (String c x ++ ".json") = false.
Proof.
  destruct x as [|c2 [|c3 [|c4 [|c5 x]]]]; cbn [append];
    rewrite ?prefix_cons, ?prefix_nil_l, ?prefix_nil_r; intros H;
    try exact H;
    repeat match goal with
           | |- context [Ascii.eqb ?a ?b] =>
               is_var b; destruct (Ascii.eqb_spec a b); subst
           end;
    reflexivity.
Qed.

Lemma replace_json (sid : string) :
  includes ".json" sid = false ->
  replace ".json" "" (sid ++ ".json") = sid.
Proof.
  induction sid as [|c sid IH]; [reflexivity|].
  rewrite includes_cons. intros H. apply orb_false_elim in H as [Hp Hi].
  rewrite replace_unfold, (prefix_json_app _ _ Hp).
  change (String c sid ++ ".json") with (String c (sid ++ ".json")).
  cbv iota. now rewrite (IH Hi).
Qed.

Lemma lookup_In_keys (A : Type) (k : string) (a : A) (es : list (string * A)) :
  lookup k es = Some a -> In k (map fst es).
Proof.
  induction es as [|[n b] rest IH]; simpl; [discriminate|].
  destruct (String.eqb_spec n k); [auto | intros H; right; auto].
Qed.

(** What [storeConversation] leaves in the session file, when the
    directory and the file are named by components. *)
Lemma storeConversation_reads_back (mgr : Manager) (w : World)
    (m : ConversationMemory) :
  disableJson (env w) = false ->
  component (sanitize (resolve_userId w m)) = true ->
  component (session_file (sessionId m)) = true ->
  appendable (disk w) (sanitize (resolve_userId w m))
             (session_file (sessionId m)) = true ->
  readFile (disk (snd (storeConversation mgr w m)))
           (sanitize (resolve_userId w m)) (session_file (sessionId m)) =
  Ret (Parses (JArray
    (previous (disk w) (sanitize (resolve_userId w m))
              (session_file (sessionId m)) ++
     [Rec (with_owner m (resolve_userId w m) (resolve_teamId w m)
                      (default Team (visibility m)))])%list)).
Proof.
  intros HJ HU HF HA.
  destruct (if initialized mgr then (mgr, w) else initialize mgr w)
    as [mgr1 w1] eqn:E.
  destruct (store_prelude _ _ E) as (Hrc & Henv & Htop & Hwr).
  rewrite (storeConversation_disk _ _ m E).
  assert (Hu : resolve_userId w1 m = resolve_userId w m).
  { unfold resolve_userId. now rewrite Hrc, Henv. }
  assert (Ht : resolve_teamId w1 m = resolve_teamId w m).
  { unfold resolve_teamId. now rewrite Hrc, Henv. }
  rewrite Henv, HJ, Hu, Ht.
  destruct (first_set_nonempty
              [RequestContext.userId (rc w); MCP_USER_ID (env w); userId m]
              "u" "nknown-user") as (c & s & Hn).
  change (owner_userId w m = String c s) in Hn.
  rewrite <- resolve_userId_precedence in Hn.
  set (m' := with_owner m (resolve_userId w m) (resolve_teamId w m)
                        (default Team (visibility m))).
  assert (Hdir : userSafe_of w1 m' = sanitize (resolve_userId w m)).
  { unfold m'. rewrite Hn. apply userSafe_of_owner. }
  pose proof (storeConversationToJson_appends w1 m') as A.
  rewrite Hdir in A. change (sessionId m') with (sessionId m) in A.
  rewrite (appendable_ext _ _ _ _ Htop Hwr) in A.
  rewrite (previous_ext _ _ _ _ Htop) in A.
  exact (proj2 (A HU HF HA)).
Qed.

(** X12.  With JSON persistence on and a session file that is missing,
    unparsable or an array of records, a scan after [storeConversation]
    reads the records read before, in their order, followed by the new
    record with its resolved owners.  The sanitised name of the user and
    the name of the session file are single path components. *)
Theorem store_then_scan :
  forall (mgr : Manager) (w : World) (m : ConversationMemory),
    disableJson (env w) = false ->
    component (sanitize (resolve_userId w m)) = true ->
    component (session_file (sessionId m)) = true ->
    appendable (disk w) (sanitize (resolve_userId w m))
               (session_file (sessionId m)) = true ->
    forallb (fun e => match e with Rec _ => true | Junk => false end)
            (previous (disk w) (sanitize (resolve_userId w m))
                      (session_file (sessionId m))) = true ->
    scan (disk (snd (storeConversation mgr w m)))
         (sanitize (resolve_userId w m)) (sessionId m) =
    (scan (disk w) (sanitize (resolve_userId w m)) (sessionId m) ++
     [with_owner m (resolve_userId w m) (resolve_teamId w m)
                 (default Team (visibility m))])%list.
Proof.
  intros mgr w m HJ HU HF HA HR.
  unfold scan at 1. unfold previous at 1.
  rewrite (storeConversation_reads_back mgr w m HJ HU HF HA).
  now apply readable_app.
Qed.

Lemma store_then_scan_witness :
  scan (disk (snd (storeConversation (fst Sample.alice_json)
                     (snd Sample.alice_json) Sample.docker)))
       "alice" "s1" =
  [with_owner Sample.nginx "alice" "default-team" Team;
   with_owner Sample.docker "alice" "default-team" Team].
Proof.
  apply (@store_then_scan (fst Sample.alice_json) (snd Sample.alice_json)
           Sample.docker); reflexivity.
Defined.

(** X13.  When the directory the write resolves is the directory the
    reads use (the user comes from the request scope or the environment
    and has only safe characters), and the names of the user and of the
    session file are single path components, a stored session is
    listed: [listSessions] after [storeConversation] contains the
    session identifier, provided the identifier does not itself contain
    the suffix of session files. *)
Theorem store_then_listSessions :
  forall (mgr : Manager) (w : World) (m : ConversationMemory),
    disableJson (env w) = false ->
    sanitize (resolve_userId w m) = reader_userId w ->
    component (reader_userId w) = true ->
    component (session_file (sessionId m)) = true ->
    appendable (disk w) (reader_userId w) (session_file (sessionId m)) = true ->
    includes ".json" (sessionId m) = false ->
    In (sessionId m) (listSessions (snd (storeConversation mgr w m))).
Proof.
  intros mgr w m HJ Hdir HU HF HA Hs.
  pose proof (storeConversation_reads_back mgr w m HJ) as R.
  rewrite Hdir in R. specialize (R HU HF HA).
  destruct (if initialized mgr then (mgr, w) else initialize mgr w)
    as [mgr1 w1] eqn:E.
  assert (Hreader : reader_userId (snd (storeConversation mgr w m)) =
                    reader_userId w).
  { unfold storeConversation. rewrite E.
    destruct (store_prelude _ _ E) as (Hrc & Henv & _ & _).
    assert (K : forall w2, rc w2 = rc w1 -> env w2 = env w1 ->
                           reader_userId w2 = reader_userId w).
    { intros w2 K1 K2. unfold reader_userId. now rewrite K1, K2, Hrc, Henv. }
    assert (J : rc (if disableJson (env w1) then w1
                    else snd (storeConversationToJson w1
                      (with_owner m (resolve_userId w1 m) (resolve_teamId w1 m)
                                  (default Team (visibility m))))) = rc w1 /\
                env (if disableJson (env w1) then w1
                     else snd (storeConversationToJson w1
                       (with_owner m (resolve_userId w1 m) (resolve_teamId w1 m)
                                   (default Team (visibility m))))) = env w1).
    { destruct (disableJson (env w1)); [auto|].
      unfold storeConversationToJson.
      destruct (mkdir _ _) as [[?|] d1]; [|auto].
      destruct (push _ _) as [data|]; [|auto].
      destruct (writeFile _ _ _ _) as [[?|] d2]; auto. }
    destruct J as [J1 J2].
    destruct (is_private _ && jsonOnlyPrivate _); [now apply K|].
    destruct (client mgr1), (collection mgr1); try now apply K.
    destruct (Chroma.add _ _) as [[?|] ?]; now apply K. }
  unfold listSessions. rewrite Hreader.
  unfold readFile in R. unfold readdir.
  destruct (lookup (reader_userId w)
              (top (disk (snd (storeConversation mgr w m)))))
    as [[t|es]|]; try discriminate.
  destruct (lookup (session_file (sessionId m)) es) as [e|] eqn:Ef;
    [|discriminate].
  apply in_map_iff. exists (session_file (sessionId m)).
  split; [now apply replace_json|].
  apply filter_In. split.
  - now apply (lookup_In_keys _ _ Ef).
  - apply endsWith_app.
Qed.

Lemma store_then_listSessions_witness :
  In "s2" (listSessions (snd (storeConversation (fst Sample.alice_json)
                                (snd Sample.alice_json) Sample.diary))).
Proof.
  apply (@store_then_listSessions (fst Sample.alice_json)
           (snd Sample.alice_json) Sample.diary); reflexivity.
Defined.

Lemma storeConversationToJson_identity (w : World) (m : ConversationMemory) :
  rc (snd (storeConversationToJson w m)) = rc w /\
  env (snd (storeConversationToJson w m)) = env w.
Proof.
  unfold storeConversationToJson.
  destruct (mkdir _ _) as [[?|] d1]; [|auto].
  destruct (push _ _) as [data|]; [|auto].
  destruct (writeFile _ _ _ _) as [[?|] d2]; auto.
Qed.

(** [storeConversation] changes neither the request scope context nor
    the environment. *)
Lemma storeConversation_identity (mgr : Manager) (w : World)
    (m : ConversationMemory) :
  rc (snd (storeConversation mgr w m)) = rc w /\
  env (snd (storeConversation mgr w m)) = env w.
Proof.
  destruct (if initialized mgr then (mgr, w) else initialize mgr w)
    as [mgr1 w1] eqn:E.
  destruct (store_prelude _ _ E) as (Hrc & Henv & _ & _).
  unfold storeConversation. rewrite E.
  set (w2 := if disableJson (env w1) then w1 else _).
  assert (J : rc w2 = rc w /\ env w2 = env w).
  { unfold w2. destruct (disableJson (env w1)); [auto|].
    destruct (storeConversationToJson_identity w1
                (with_owner m (resolve_userId w1 m) (resolve_teamId w1 m)
                            (default Team (visibility m)))) as [J1 J2].
    rewrite J1, J2. auto. }
  destruct (is_private _ && jsonOnlyPrivate _); [exact J|].
  destruct (client mgr1), (collection mgr1); try exact J.
  destruct (Chroma.add _ _) as [[?|] ?]; exact J.
Qed.

(** X14.  Store, then search the session by keyword.  When the write
    and the reads resolve the same directory, the names of the user and
    of the session file are single path components and the session file
    held records only, the JSON search of the session after
    [storeConversation] returns the results of the matches among the
    records scanned before followed by the new one, in that order,
    truncated to the limit. *)
Theorem store_then_search_session :
  forall (mgr : Manager) (w : World) (m : ConversationMemory) (q : string)
         (limit : option Z),
    disableJson (env w) = false ->
    sanitize (resolve_userId w m) = reader_userId w ->
    component (reader_userId w) = true ->
    component (session_file (sessionId m)) = true ->
    appendable (disk w) (reader_userId w) (session_file (sessionId m)) = true ->
    forallb (fun e => match e with Rec _ => true | Junk => false end)
            (previous (disk w) (reader_userId w)
                      (session_file (sessionId m))) = true ->
    sessionId m <> "" ->
    searchJsonMemories (snd (storeConversation mgr w m)) q
                       (Some (sessionId m)) limit =
    truncate (default 5 limit)
      (map fallback_result
         (filter (keyword_hit q)
            (scan (disk w) (reader_userId w) (sessionId m) ++
             [with_owner m (resolve_userId w m) (resolve_teamId w m)
                         (default Team (visibility m))])%list)).
Proof.
  intros mgr w m q limit HJ Hdir HU HF HA HR Hs.
  rewrite searchJsonMemories_spec.
  unfold keyword_search, scanned_records. rewrite scanned_files_truthy.
  assert (T : truthy (Some (sessionId m)) = true).
  { destruct (sessionId m); [congruence | reflexivity]. }
  assert (O : or_lit (Some (sessionId m)) "" = sessionId m).
  { destruct (sessionId m); reflexivity. }
  rewrite T, O.
  assert (Hreader : reader_userId (snd (storeConversation mgr w m)) =
                    reader_userId w).
  { destruct (storeConversation_identity mgr w m) as [K1 K2].
    unfold reader_userId. now rewrite K1, K2. }
  rewrite <- reader_userId_active, Hreader. cbn [flat_map]. rewrite app_nil_r.
  unfold file_records. unfold session_file at 1. rewrite endsWith_app.
  pose proof (storeConversation_reads_back mgr w m HJ) as R.
  rewrite Hdir in R. specialize (R HU HF HA).
  unfold previous at 1. rewrite R.
  rewrite readable_app by exact HR. reflexivity.
Qed.

Lemma store_then_search_session_witness :
  searchJsonMemories (snd (storeConversation (fst Sample.alice_json)
                             (snd Sample.alice_json) Sample.docker))
                     "docker" (Some "s1") None =
  [ {| content := "User: How do I run Docker here?" ++ nl ++
                  "Assistant: Use the compose file.";
       metadata := [ ("sessionId", Chroma.MStr "s1");
                     ("timestamp", Chroma.MNum 1700000000500);
                     ("tags", Chroma.MArr ["docker"]);
                     ("context", Chroma.MArr []) ];
       distance := 1 # 2 |} ].
Proof.
  apply (@store_then_search_session (fst Sample.alice_json)
           (snd Sample.alice_json) Sample.docker "docker" None);
    try reflexivity.
  discriminate.
Defined.

(** ** Sessions, continued *)

(** X15.  When the name of the active user and the name of the session
    file are single path components, [deleteSession] returns true
    exactly when a plain file named after the session lies directly
    under the memory directory and can be removed; in every case the
    sessions listed before are listed after. *)
Theorem deleteSession_acts_on_top_level_only :
  forall (w : World) (sid : string),
    component (reader_userId w) = true ->
    component (session_file sid) = true ->
    (fst (deleteSession w sid) = true <->
     writable (disk w) = true /\
     exists t, lookup (session_file sid) (top (disk w)) = Some (Plain t)) /\
    (forall x, In x (listSessions w) ->
               In x (listSessions (snd (deleteSession w sid)))).
Proof.
  intros w sid HU HF.
  split; [|intros x; now apply deleteSession_keeps_listing].
  unfold deleteSession, unlink_root.
  destruct (lookup (session_file sid) (top (disk w))) as [[t|es]|];
    [destruct (writable (disk w))| |]; simpl; split;
    try discriminate; try (intros [_ [t' H]]; discriminate);
    try (intros [H _]; discriminate); eauto.
Qed.

Lemma deleteSession_acts_on_top_level_only_witness :
  (fst (deleteSession (snd Sample.alice_json) "s1") = true <->
   writable (disk (snd Sample.alice_json)) = true /\
   exists t, lookup "s1.json" (top (disk (snd Sample.alice_json))) =
             Some (Plain t)) /\
  (forall x, In x (listSessions (snd Sample.alice_json)) ->
             In x (listSessions
                     (snd (deleteSession (snd Sample.alice_json) "s1")))).
Proof.
  apply (@deleteSession_acts_on_top_level_only (snd Sample.alice_json) "s1");
    reflexivity.
Defined.

(** ** The context prompt, continued *)

Lemma append_blocks_shape (maxLength : Z) (ms : list MemorySearchResult) :
  forall (ctx : string) (cur : Z),
  exists k, append_blocks maxLength ms ctx cur = ctx ++ blocks (firstn k ms).
Proof.
  induction ms as [|m rest IH]; intros ctx cur; simpl.
  - exists O. simpl. clear. induction ctx; simpl; congruence.
  - destruct (cur + len (addition m) >? maxLength).
    + exists O. simpl. clear. induction ctx; simpl; congruence.
    + destruct (IH (ctx ++ addition m) (cur + len (addition m))) as [k Hk].
      exists (S k). rewrite Hk. simpl. apply string_app_assoc.
Qed.

(** X16.  For a maximum of at least the 50 characters of the heading
    (the default 2000 included), the prompt is never longer than the
    maximum; it is empty, or the heading followed by the blocks of the
    first results, in the order of the search. *)
Theorem buildContextPrompt_within_maxLength :
  forall (mgr : Manager) (w : World) (msg : string) (sid : option string)
         (maxLength : option Z),
    50 <= default 2000 maxLength ->
    len (fst (buildContextPrompt mgr w msg sid maxLength)) <=
      default 2000 maxLength /\
    (fst (buildContextPrompt mgr w msg sid maxLength) = "" \/
     exists k,
       fst (buildContextPrompt mgr w msg sid maxLength) =
       prompt_header ++
       blocks (firstn k (snd (fst (searchRelevantMemories mgr w msg sid
                                     (Some 3)))))).
Proof.
  intros mgr w msg sid maxLength H. split.
  - pose proof (proj1 (buildContextPrompt_bound mgr w msg sid maxLength)). lia.
  - unfold buildContextPrompt.
    destruct (searchRelevantMemories mgr w msg sid (Some 3)) as [[p rs] w1].
    destruct rs as [|r rs]; cbn [fst snd]; [now left|right].
    apply append_blocks_shape.
Qed.

Lemma buildContextPrompt_within_maxLength_witness :
  len (fst (buildContextPrompt (fst Sample.alice_json) (snd Sample.alice_json)
              "nginx" None None)) <= 2000 /\
  (fst (buildContextPrompt (fst Sample.alice_json) (snd Sample.alice_json)
          "nginx" None None) = "" \/
   exists k,
     fst (buildContextPrompt (fst Sample.alice_json) (snd Sample.alice_json)
            "nginx" None None) =
     prompt_header ++
     blocks (firstn k (snd (fst (searchRelevantMemories (fst Sample.alice_json)
                                   (snd Sample.alice_json) "nginx" None
                                   (Some 3)))))).
Proof.
  apply (@buildContextPrompt_within_maxLength (fst Sample.alice_json)
           (snd Sample.alice_json) "nginx" None None).
  simpl. lia.
Defined.

(** ** Bulk reload, continued *)

Lemma reload_memories_sends (l : list elem) :
  forall (s : Chroma.Service) (loaded : Z),
    (forall n, Chroma.up s n = true) -> Chroma.stored s <> None ->
    Chroma.log (snd (fst (reload_memories s loaded l))) =
      (Chroma.log s ++ map Chroma.Add (map reload_item (readable l)))%list /\
    snd (reload_memories s loaded l) =
      loaded + Z.of_nat (List.length (readable l)) /\
    Chroma.up (snd (fst (reload_memories s loaded l))) = Chroma.up s /\
    Chroma.stored (snd (fst (reload_memories s loaded l))) <> None.
Proof.
  induction l as [|[m|] rest IH]; intros s loaded Hup Hst.
  - simpl. rewrite app_nil_r. repeat split; [lia | exact Hst].
  - cbn [reload_memories readable map]. unfold Chroma.add, Chroma.reached.
    rewrite Hup. destruct (Chroma.stored s) as [st|] eqn:St; [|congruence].
    set (s1 := Chroma.set_stored _ _).
    destruct (IH s1 (loaded + 1)) as (L & N & U & K);
      [exact Hup | discriminate |].
    rewrite L, N, U. split; [|split; [|split]].
    + unfold s1. cbn [Chroma.log Chroma.set_stored Chroma.logged map].
      now rewrite <- app_assoc.
    + change (List.length (m :: readable rest))
        with (Datatypes.S (List.length (readable rest))).
      rewrite Nat2Z.inj_succ. lia.
    + reflexivity.
    + exact K.
  - simpl. rewrite app_nil_r. repeat split; [lia | exact Hst].
Qed.

Lemma reload_file_sends (d : Disk) (s : Chroma.Service) (loaded errors : Z)
    (filePath : string * string) :
  (forall n, Chroma.up s n = true) -> Chroma.stored s <> None ->
  Chroma.log (fst (fst (reload_file d (s, loaded, errors) filePath))) =
    (Chroma.log s ++
     map Chroma.Add
       (map reload_item
            (readable (previous d (fst filePath) (snd filePath)))))%list /\
  snd (fst (reload_file d (s, loaded, errors) filePath)) =
    loaded + Z.of_nat (List.length
                         (readable (previous d (fst filePath) (snd filePath)))) /\
  Chroma.up (fst (fst (reload_file d (s, loaded, errors) filePath))) =
    Chroma.up s /\
  Chroma.stored (fst (fst (reload_file d (s, loaded, errors) filePath)))
    <> None.
Proof.
  intros Hup Hst. unfold reload_file, previous.
  destruct (readFile d (fst filePath) (snd filePath)) as [[|[l|[|? ?]|]]|];
    try (simpl; rewrite app_nil_r; repeat split; [lia | exact Hst]).
  destruct (reload_memories_sends l s loaded Hup Hst) as (L & N & U & K).
  destruct (reload_memories s loaded l) as [[[?|] s1] loaded1];
    simpl in *; auto.
Qed.

Lemma reload_files_sends (d : Disk) (files : list (string * string)) :
  forall (s : Chroma.Service) (loaded errors : Z),
    (forall n, Chroma.up s n = true) -> Chroma.stored s <> None ->
    Chroma.log (fst (fst (fold_left (reload_file d) files (s, loaded, errors))))
      = (Chroma.log s ++
         map Chroma.Add
           (map reload_item
              (flat_map (fun filePath =>
                           readable (previous d (fst filePath) (snd filePath)))
                        files)))%list /\
    snd (fst (fold_left (reload_file d) files (s, loaded, errors))) =
      loaded + Z.of_nat (List.length
        (flat_map (fun filePath =>
                     readable (previous d (fst filePath) (snd filePath)))
                  files)) /\
    Chroma.up (fst (fst (fold_left (reload_file d) files (s, loaded, errors))))
      = Chroma.up s /\
    Chroma.stored
      (fst (fst (fold_left (reload_file d) files (s, loaded, errors))))
      <> None.
Proof.
  induction files as [|f rest IH]; intros s loaded errors Hup Hst;
    cbn [fold_left flat_map].
  - simpl. rewrite app_nil_r. repeat split; [lia | exact Hst].
  - destruct (reload_file_sends d s loaded errors f Hup Hst)
      as (L1 & N1 & U1 & S1).
    destruct (reload_file d (s, loaded, errors) f) as [[s1 l1] e1].
    cbn [fst snd] in *.
    assert (Hup1 : forall n, Chroma.up s1 n = true)
      by (intros n; rewrite U1; apply Hup).
    destruct (IH s1 l1 e1 Hup1 S1) as (L2 & N2 & U2 & S2).
    split; [|split; [|split]].
    + rewrite L2, L1, !map_app. now rewrite <- app_assoc.
    + rewrite N2, N1, length_app, Nat2Z.inj_add. lia.
    + now rewrite U2, U1.
    + exact S2.
Qed.

(** X17.  With a collection and a service that answers every call, the
    bulk reload sends one add for every record of every session file of
    every user directory, in the order of the walk, and counts them as
    loaded.  It does not look at what the collection holds: a second
    reload sends the same adds again. *)
Theorem reload_sends_every_record_again :
  forall (mgr : Manager) (w : World),
    collection mgr <> None ->
    (forall n, Chroma.up (chroma w) n = true) ->
    Chroma.stored (chroma w) <> None ->
    let adds := map Chroma.Add (map reload_item (reload_records (disk w))) in
    let w1 := snd (reloadAllMemoriesFromJson mgr w) in
    Chroma.log (chroma w1) = (Chroma.log (chroma w) ++ adds)%list /\
    fst (fst (reloadAllMemoriesFromJson mgr w)) =
      Z.of_nat (List.length (reload_records (disk w))) /\
    Chroma.log (chroma (snd (reloadAllMemoriesFromJson mgr w1))) =
      (Chroma.log (chroma w) ++ adds ++ adds)%list.
Proof.
  intros mgr w Hc Hup Hst adds w1.
  assert (G : forall w0,
             (forall n, Chroma.up (chroma w0) n = true) ->
             Chroma.stored (chroma w0) <> None ->
             Chroma.log (chroma (snd (reloadAllMemoriesFromJson mgr w0))) =
               (Chroma.log (chroma w0) ++
                map Chroma.Add (map reload_item (reload_records (disk w0))))%list /\
             fst (fst (reloadAllMemoriesFromJson mgr w0)) =
               Z.of_nat (List.length (reload_records (disk w0))) /\
             Chroma.up (chroma (snd (reloadAllMemoriesFromJson mgr w0))) =
               Chroma.up (chroma w0) /\
             Chroma.stored (chroma (snd (reloadAllMemoriesFromJson mgr w0)))
               <> None /\
             disk (snd (reloadAllMemoriesFromJson mgr w0)) = disk w0).
  { intros w0 Hup0 Hst0. unfold reloadAllMemoriesFromJson, reload_records.
    destruct (collection mgr); [|congruence].
    destruct (reload_files_sends (disk w0) (sessionFiles (disk w0))
                (chroma w0) 0 0 Hup0 Hst0) as (L & N & U & K).
    destruct (fold_left (reload_file (disk w0)) (sessionFiles (disk w0))
                (chroma w0, 0, 0)) as [[s loaded] errors].
    cbn [fst snd chroma disk set_chroma] in *.
    repeat split; auto. }
  destruct (G w Hup Hst) as (L & N & U & K & D).
  fold w1 in L, U, K, D. split; [exact L|]. split; [exact N|].
  destruct (G w1) as (L1 & _).
  - intros n. rewrite U. apply Hup.
  - exact K.
  - rewrite L1, L, D. unfold adds. now rewrite <- app_assoc.
Qed.

Lemma reload_sends_every_record_again_witness :
  let mgr := fst Sample.recovered in
  let w := snd Sample.recovered in
  let adds := map Chroma.Add (map reload_item (reload_records (disk w))) in
  let w1 := snd (reloadAllMemoriesFromJson mgr w) in
  Chroma.log (chroma w1) = (Chroma.log (chroma w) ++ adds)%list /\
  fst (fst (reloadAllMemoriesFromJson mgr w)) =
    Z.of_nat (List.length (reload_records (disk w))) /\
  Chroma.log (chroma (snd (reloadAllMemoriesFromJson mgr w1))) =
    (Chroma.log (chroma w) ++ adds ++ adds)%list.
Proof.
  apply (@reload_sends_every_record_again (fst Sample.recovered)
           (snd Sample.recovered)).
  - discriminate.
  - reflexivity.
  - discriminate.
Defined.

(** ** The tool registry *)

Lemma lookup_None_keys (A : Type) (k : string) (es : list (string * A)) :
  lookup k es = None <-> ~ In k (map fst es).
Proof.
  induction es as [|[n b] rest IH]; simpl; [tauto|].
  destruct (String.eqb_spec n k) as [->|N].
  - split; [discriminate | intros H; exfalso; auto].
  - rewrite IH. tauto.
Qed.

Lemma put_new_keys (A : Type) (k : string) (v : A) (es : list (string * A)) :
  lookup k es = None -> map fst (put k v es) = (map fst es ++ [k])%list.
Proof.
  induction es as [|[n b] rest IH]; simpl; [reflexivity|].
  destruct (String.eqb n k); [discriminate|].
  intros H. simpl. now rewrite IH.
Qed.

Lemma lookup_put_other (A : Type) (k k' : string) (v : A)
    (es : list (string * A)) :
  k <> k' -> lookup k (put k' v es) = lookup k es.
Proof.
  intros N. induction es as [|[n b] rest IH]; simpl.
  - destruct (String.eqb_spec k' k); [congruence | reflexivity].
  - destruct (String.eqb_spec n k') as [->|N'].
    + simpl. destruct (String.eqb_spec k' k); [congruence | reflexivity].
    + simpl. now rewrite IH.
Qed.

Section RegistryFacts.

Variable Args : Type.
Variable Schema : Type.

Abbreviation Tool := (Registry.StandardTool Args Schema).
Abbreviation Suite := (Registry.ToolSuite Args Schema).
Abbreviation Entry := (Registry.ToolRegistrationEntry Args Schema).

Lemma has_false (A : Type) (k : string) (es : list (string * A)) :
  Registry.has k es = false <-> lookup k es = None.
Proof. unfold Registry.has. destruct (lookup k es); split; congruence. Qed.

(** What the loop of [registerSuite] does to the names: it adds the
    names of the tools before the first one that is already there. *)
Lemma register_tools_names (suite : Suite) (ts : list Tool) :
  forall m : list (string * Entry),
  exists pre,
    map fst (snd (Registry.register_tools suite ts m)) =
      (map fst m ++ map (@Registry.name Args Schema) pre)%list /\
    ((fst (Registry.register_tools suite ts m) = None /\ pre = ts) \/
     (exists tool post,
         ts = (pre ++ tool :: post)%list /\
         fst (Registry.register_tools suite ts m) =
           Some ("Tool " ++ Registry.name tool ++ " already registered") /\
         In (Registry.name tool)
            (map fst m ++ map (@Registry.name Args Schema) pre)%list)).
Proof.
  induction ts as [|tool rest IH]; intros m; simpl.
  - exists []. rewrite app_nil_r. auto.
  - destruct (Registry.has (Registry.name tool) m) eqn:H.
    + exists []. simpl. rewrite app_nil_r. split; [reflexivity|].
      right. exists tool, rest. repeat split.
      unfold Registry.has in H.
      destruct (lookup (Registry.name tool) m) eqn:L; [|discriminate].
      now apply (lookup_In_keys _ _ L).
    + apply has_false in H.
      destruct (IH (put (Registry.name tool)
                      (Registry.mkEntry (Registry.name tool)
                         (Registry.description tool)
                         (Registry.inputSchema tool) suite tool) m))
        as (pre & Hn & Hc).
      rewrite (put_new_keys _ _ _ H) in Hn.
      exists (tool :: pre). simpl. rewrite Hn, <- app_assoc. split; [reflexivity|].
      destruct Hc as [[He ->]|(t' & post & -> & He & Hi)].
      * left. auto.
      * right. exists t', post. repeat split; [exact He|].
        rewrite (put_new_keys _ _ _ H), <- app_assoc in Hi. exact Hi.
Qed.

(** An entry that is in the map stays what it is. *)
Lemma register_tools_keeps (suite : Suite) (ts : list Tool) :
  forall (m : list (string * Entry)) (k : string) (e : Entry),
    lookup k m = Some e ->
    lookup k (snd (Registry.register_tools suite ts m)) = Some e.
Proof.
  induction ts as [|tool rest IH]; intros m k e Hk; simpl; [exact Hk|].
  destruct (Registry.has (Registry.name tool) m) eqn:H; [exact Hk|].
  apply has_false in H. apply IH.
  rewrite lookup_put_other; [exact Hk|].
  intros ->. congruence.
Qed.

Lemma register_tools_registers (suite : Suite) (ts : list Tool) :
  forall (m : list (string * Entry)),
    fst (Registry.register_tools suite ts m) = None ->
    forall tool, In tool ts ->
      lookup (Registry.name tool) (snd (Registry.register_tools suite ts m)) =
      Some (Registry.mkEntry (Registry.name tool) (Registry.description tool)
              (Registry.inputSchema tool) suite tool).
Proof.
  induction ts as [|t0 rest IH]; intros m Hok tool Hin; [destruct Hin|].
  simpl in *. destruct (Registry.has (Registry.name t0) m) eqn:H;
    [discriminate|].
  destruct Hin as [->|Hin].
  - apply register_tools_keeps. apply lookup_put.
  - now apply IH.
Qed.

(** X18.  [registerSuite] never replaces a registered tool.  A name
    that [hasTool] knows before the call is known after it, whether the
    call returns or throws, and [executeTool] on it answers as before:
    a later suite that brings a tool of the same name is stopped by the
    check of the name and does not take the name over. *)
Theorem registerSuite_never_replaces_a_tool :
  forall (r : Registry.t Args Schema) (suite : Suite) (nm : string),
    Registry.hasTool r nm = true ->
    Registry.hasTool (snd (Registry.registerSuite r suite)) nm = true /\
    lookup nm (Registry.tools (snd (Registry.registerSuite r suite))) =
      lookup nm (Registry.tools r) /\
    forall args : Args,
      Registry.executeTool (snd (Registry.registerSuite r suite)) nm args =
      Registry.executeTool r nm args.
Proof.
  intros r suite nm H. unfold Registry.hasTool, Registry.has in H.
  destruct (lookup nm (Registry.tools r)) as [e|] eqn:L; [|discriminate].
  pose proof (register_tools_keeps suite (Registry.getTools suite)
                (Registry.tools r) nm L) as K.
  unfold Registry.registerSuite, Registry.hasTool, Registry.has,
    Registry.executeTool.
  destruct (Registry.register_tools suite (Registry.getTools suite)
              (Registry.tools r)) as [err tools'].
  cbn [fst snd Registry.tools] in *. rewrite K, L. auto.
Qed.

(** X19.  [registerSuite] is not atomic.  It records the suite, then
    registers the tools in order and throws at the first whose name is
    taken: the tools before it stay registered, and the error names the
    tool. *)
Theorem registerSuite_stops_at_first_taken_name :
  forall (r : Registry.t Args Schema) (suite : Suite),
    Registry.has (Registry.category suite ++ "-" ++ Registry.version suite)
                 (Registry.suites (snd (Registry.registerSuite r suite)))
      = true /\
    exists pre,
      Registry.listTools (snd (Registry.registerSuite r suite)) =
        (Registry.listTools r ++ map (@Registry.name Args Schema) pre)%list /\
      ((fst (Registry.registerSuite r suite) = None /\
        pre = Registry.getTools suite) \/
       (exists tool post,
           Registry.getTools suite = (pre ++ tool :: post)%list /\
           fst (Registry.registerSuite r suite) =
             Some ("Tool " ++ Registry.name tool ++ " already registered") /\
           In (Registry.name tool)
              (Registry.listTools r ++
               map (@Registry.name Args Schema) pre)%list)).
Proof.
  intros r suite. unfold Registry.registerSuite, Registry.listTools.
  destruct (register_tools_names suite (Registry.getTools suite)
              (Registry.tools r)) as (pre & Hn & Hc).
  destruct (Registry.register_tools suite (Registry.getTools suite)
              (Registry.tools r)) as [err tools'].
  cbn [fst snd Registry.tools Registry.suites] in *. split.
  - unfold Registry.has. now rewrite lookup_put.
  - exists pre. auto.
Qed.

(** X20.  Register, then execute.  After a [registerSuite] that
    returned, [executeTool] on the name of a tool of the suite runs
    that tool and never throws: it returns the text of the tool, or the
    text that reports its error.  A name that [hasTool] denies makes
    [executeTool] throw the unknown-tool error. *)
Theorem registered_tool_executes :
  forall (r : Registry.t Args Schema) (suite : Suite) (args : Args),
    fst (Registry.registerSuite r suite) = None ->
    (forall tool, In tool (Registry.getTools suite) ->
       Registry.executeTool (snd (Registry.registerSuite r suite))
                            (Registry.name tool) args =
       match Registry.execute tool args with
       | Registry.Returned text => Registry.Returned text
       | Registry.Threw errorMessage =>
           Registry.Returned ("Error executing " ++ Registry.name tool ++
                              ": " ++ errorMessage)
       end) /\
    (forall nm,
       Registry.hasTool (snd (Registry.registerSuite r suite)) nm = false ->
       Registry.executeTool (snd (Registry.registerSuite r suite)) nm args =
       Registry.Threw ("Unknown tool: " ++ nm)).
Proof.
  intros r suite args Hok. unfold Registry.registerSuite in *.
  pose proof (register_tools_registers suite (Registry.getTools suite)
                (Registry.tools r)) as R.
  destruct (Registry.register_tools suite (Registry.getTools suite)
              (Registry.tools r)) as [err tools'].
  cbn [fst snd] in *. split.
  - intros tool Hin. unfold Registry.executeTool. cbn [Registry.tools].
    rewrite (R Hok tool Hin). reflexivity.
  - intros nm H. unfold Registry.executeTool, Registry.hasTool in *.
    cbn [Registry.tools] in *. apply has_false in H. now rewrite H.
Qed.

End RegistryFacts.

Lemma registerSuite_never_replaces_a_tool_witness :
  Registry.hasTool
    (snd (Registry.registerSuite
            (snd (Registry.registerSuite (Registry.empty string unit)
                    RegistrySample.suite))
            RegistrySample.rival))
    "echo" = true /\
  lookup "echo"
    (Registry.tools
       (snd (Registry.registerSuite
               (snd (Registry.registerSuite (Registry.empty string unit)
                       RegistrySample.suite))
               RegistrySample.rival))) =
  lookup "echo"
    (Registry.tools
       (snd (Registry.registerSuite (Registry.empty string unit)
               RegistrySample.suite))) /\
  forall args : string,
    Registry.executeTool
      (snd (Registry.registerSuite
              (snd (Registry.registerSuite (Registry.empty string unit)
                      RegistrySample.suite))
              RegistrySample.rival))
      "echo" args =
    Registry.executeTool
      (snd (Registry.registerSuite (Registry.empty string unit)
              RegistrySample.suite))
      "echo" args.
Proof.
  apply (@registerSuite_never_replaces_a_tool string unit
           (snd (Registry.registerSuite (Registry.empty string unit)
                   RegistrySample.suite))
           RegistrySample.rival "echo").
  reflexivity.
Defined.

Lemma registered_tool_executes_witness :
  Registry.executeTool
    (snd (Registry.registerSuite (Registry.empty string unit)
            RegistrySample.suite))
    "broken" "x" =
  Registry.Returned "Error executing broken: boom".
Proof.
  apply (proj1 (@registered_tool_executes string unit
                  (Registry.empty string unit) RegistrySample.suite "x"
                  eq_refl) RegistrySample.broken).
  simpl. auto.
Defined.

(** ** Path validation *)

Lemma prefix_refl (d : string) : String.prefix d d = true.
Proof.
  induction d as [|c d IH]; [reflexivity|].
  now rewrite prefix_cons, Ascii.eqb_refl.
Qed.

(** X21.  The outcomes of [validatePath].  A path is returned only if
    the requested path, made absolute and normal, starts with an allowed
    directory; it is the real path when that starts with an allowed
    directory, and else the absolute path itself, provided the real path
    of its parent does.  An error is one of two: the path is outside, or
    the parent directory does not exist; the errors about a symbolic
    link or a parent outside the allowed directories never leave the
    function. *)
Theorem validatePath_outcomes :
  forall (h : PathUtils.Host) (requestedPath : string)
         (allowedDirectories : list string),
    let absolute := PathUtils.absolute_of h requestedPath in
    match PathUtils.validatePath h requestedPath allowedDirectories with
    | PathUtils.Allowed p =>
        PathUtils.within allowedDirectories (PathUtils.normalize h absolute)
          = true /\
        ((PathUtils.realpath h absolute = Ret p /\
          PathUtils.within allowedDirectories (PathUtils.normalize h p) = true)
         \/
         (p = absolute /\
          exists parent,
            PathUtils.realpath h (PathUtils.dirname h absolute) = Ret parent /\
            PathUtils.within allowedDirectories (PathUtils.normalize h parent)
              = true))
    | PathUtils.Denied message =>
        message = "Access denied - path outside allowed directories: " ++
                  absolute ++ " not in " ++ join ", " allowedDirectories \/
        message = "Parent directory does not exist: " ++
                  PathUtils.dirname h absolute
    end.
Proof.
  intros h p dirs absolute.
  unfold PathUtils.validatePath, PathUtils.parent_check,
    PathUtils.normalizePath. fold absolute.
  destruct (PathUtils.within dirs (PathUtils.normalize h absolute)) eqn:W;
    simpl; [|now left].
  assert (P :
    match
      match PathUtils.realpath h (PathUtils.dirname h absolute) with
      | Ret realParentPath =>
          if PathUtils.within dirs (PathUtils.normalize h realParentPath)
          then PathUtils.Allowed absolute
          else PathUtils.Denied ("Parent directory does not exist: " ++
                                 PathUtils.dirname h absolute)
      | Thrown => PathUtils.Denied ("Parent directory does not exist: " ++
                                    PathUtils.dirname h absolute)
      end
    with
    | PathUtils.Allowed q =>
        true = true /\
        ((PathUtils.realpath h absolute = Ret q /\
          PathUtils.within dirs (PathUtils.normalize h q) = true) \/
         (q = absolute /\
          exists parent,
            PathUtils.realpath h (PathUtils.dirname h absolute) = Ret parent /\
            PathUtils.within dirs (PathUtils.normalize h parent) = true))
    | PathUtils.Denied message =>
        message = "Access denied - path outside allowed directories: " ++
                  absolute ++ " not in " ++ join ", " dirs \/
        message = "Parent directory does not exist: " ++
                  PathUtils.dirname h absolute
    end).
  { destruct (PathUtils.realpath h (PathUtils.dirname h absolute))
      as [parent|] eqn:R; [|now right].
    destruct (PathUtils.within dirs (PathUtils.normalize h parent)) eqn:Wp;
      [|now right].
    split; [reflexivity|]. right. split; [reflexivity|]. eauto. }
  destruct (PathUtils.realpath h absolute) as [real|] eqn:R; [|exact P].
  destruct (PathUtils.within dirs (PathUtils.normalize h real)) eqn:Wr;
    [|exact P].
  split; [reflexivity|]. left. auto.
Qed.

(** X22.  The check of a symbolic link does not stop the request.  When
    the real path of the requested path lies outside the allowed
    directories, the error is caught by the handler meant for files
    that do not exist yet, and the path is allowed all the same if the
    real path of its parent is inside. *)
Theorem validatePath_allows_link_to_outside :
  forall (h : PathUtils.Host) (requestedPath : string)
         (allowedDirectories : list string) (real parent : string),
    let absolute := PathUtils.absolute_of h requestedPath in
    PathUtils.within allowedDirectories (PathUtils.normalize h absolute)
      = true ->
    PathUtils.realpath h absolute = Ret real ->
    PathUtils.within allowedDirectories (PathUtils.normalize h real) = false ->
    PathUtils.realpath h (PathUtils.dirname h absolute) = Ret parent ->
    PathUtils.within allowedDirectories (PathUtils.normalize h parent) = true ->
    PathUtils.validatePath h requestedPath allowedDirectories =
    PathUtils.Allowed absolute.
Proof.
  intros h p dirs real parent absolute W R Wr Rp Wp.
  unfold PathUtils.validatePath, PathUtils.parent_check,
    PathUtils.normalizePath. fold absolute.
  now rewrite W, R, Wr, Rp, Wp.
Qed.

Lemma validatePath_allows_link_to_outside_witness :
  PathUtils.validatePath PathUtils.linked "/data/link" ["/data"] =
  PathUtils.Allowed "/data/link".
Proof.
  apply (@validatePath_allows_link_to_outside PathUtils.linked "/data/link"
           ["/data"] "/etc/passwd" "/data"); reflexivity.
Defined.

(** X23.  The directory test compares text, not path components: a
    path is inside as soon as its text continues the text of an allowed
    directory, whatever the continuation. *)
Theorem validatePath_prefix_is_textual :
  forall (h : PathUtils.Host) (requestedPath dir rest rest' real : string)
         (allowedDirectories : list string),
    In dir allowedDirectories ->
    PathUtils.normalize h (PathUtils.absolute_of h requestedPath) =
      dir ++ rest ->
    PathUtils.realpath h (PathUtils.absolute_of h requestedPath) = Ret real ->
    PathUtils.normalize h real = dir ++ rest' ->
    PathUtils.validatePath h requestedPath allowedDirectories =
    PathUtils.Allowed real.
Proof.
  intros h p dir rest rest' real dirs Hin Hn Hr Hn'.
  assert (W : forall r, PathUtils.within dirs (dir ++ r) = true).
  { intros r. unfold PathUtils.within. apply existsb_exists.
    exists dir. split; [exact Hin|]. apply prefix_app, prefix_refl. }
  unfold PathUtils.validatePath, PathUtils.normalizePath.
  now rewrite Hn, W, Hr, Hn', W.
Qed.

Lemma validatePath_prefix_is_textual_witness :
  PathUtils.validatePath PathUtils.linked "/database/secret" ["/data"] =
  PathUtils.Allowed "/database/secret".
Proof.
  apply (@validatePath_prefix_is_textual PathUtils.linked "/database/secret"
           "/data" "base/secret" "base/secret" "/database/secret" ["/data"]);
    try reflexivity.
  simpl. auto.
Defined.

(** ** Context extraction and the tool handlers *)

Lemma uniq_In (l : list string) (x : string) : In x (uniq l) <-> In x l.
Proof.
  induction l as [|a l IH]; simpl; [tauto|].
  rewrite filter_In, IH.
  destruct (String.eqb_spec a x) as [->|N]; simpl; [tauto|].
  intuition congruence.
Qed.

Lemma uniq_NoDup (l : list string) : NoDup (uniq l).
Proof.
  induction l as [|a l IH]; simpl; constructor.
  - rewrite filter_In. intros [_ H]. now rewrite String.eqb_refl in H.
  - now apply NoDup_filter.
Qed.

Lemma take_while_holds (p : ascii -> bool) (s : string) :
  forallb p (list_ascii_of_string (take_while p s)) = true.
Proof.
  induction s as [|c s IH]; simpl; [reflexivity|].
  destruct (p c) eqn:E; simpl; [now rewrite E | reflexivity].
Qed.

Lemma match_keyword_capture (spaces : bool) (kws : list string) (s : string)
    (capture : string) (n : nat) :
  match_keyword spaces kws s = Some (capture, n) ->
  capture <> "" /\
  forallb ref_char (list_ascii_of_string capture) = true.
Proof.
  induction kws as [|kw rest IH]; simpl; [discriminate|].
  destruct (String.prefix kw (toLowerCase s)); [|exact IH].
  set (cap := take_while ref_char _).
  pose proof (take_while_holds ref_char
                (drop (String.length
                         (if spaces
                          then take_while is_space (drop (String.length kw) s)
                          else ""))
                      (drop (String.length kw) s))) as T.
  fold cap in T. destruct cap as [|c cap'] eqn:E; [exact IH|].
  intros [= <- _]. split; [discriminate | exact T].
Qed.

Lemma exec_all_In (regex : string -> option (string * nat)) (s : string) :
  forall (skip : nat) (x : string),
    In x (exec_all regex skip s) -> exists s' n, regex s' = Some (x, n).
Proof.
  induction s as [|c s IH]; intros skip x; simpl; [tauto|].
  destruct skip as [|k]; [|apply IH].
  destruct (regex (String c s)) as [[found n]|] eqn:E; [|apply IH].
  intros [<-|H]; [eauto | eapply IH; eauto].
Qed.

(** X24.  [extractContext] returns each reference once; each is a file
    reference, whose name is not empty and holds no white space and no
    comma, or a URL. *)
Theorem extractContext_entries :
  forall text : string,
    NoDup (extractContext text) /\
    forall x, In x (extractContext text) ->
      (exists ref, x = "file: " ++ ref /\ ref <> "" /\
                   forallb ref_char (list_ascii_of_string ref) = true) \/
      (exists u, x = "url: " ++ u).
Proof.
  intros text. unfold extractContext. split; [apply uniq_NoDup|].
  intros x Hx. apply uniq_In, in_app_or in Hx as [Hx|Hx];
    apply in_map_iff in Hx as (found & <- & Hf).
  - left. exists found. split; [reflexivity|].
    apply exec_all_In in Hf as (s' & n & Hm).
    exact (match_keyword_capture _ _ _ Hm).
  - right. eauto.
Qed.

Lemma extractTags_incl_l (a b : string) :
  incl (extractTags a) (extractTags (a ++ b)).
Proof.
  unfold extractTags, toLowerCase. rewrite map_chars_app.
  intros tag H. apply filter_In in H as [Hin Hinc].
  apply filter_In. split; [exact Hin | now apply includes_app_l].
Qed.

Lemma extractTags_incl_r (a b : string) :
  incl (extractTags b) (extractTags (a ++ b)).
Proof.
  unfold extractTags, toLowerCase. rewrite map_chars_app.
  intros tag H. apply filter_In in H as [Hin Hinc].
  apply filter_In. split; [exact Hin | now apply includes_app_r].
Qed.

(** X25.  With extraction on (the default), the tags the store handler
    records hold no repetition, and among them are the tags given and
    every known tag that occurs in the user message or in the
    assistant response. *)
Theorem store_handler_tags :
  forall args : StoreArgs,
    autoExtract args = true ->
    NoDup (store_tags args) /\
    incl (default [] (arg_tags args)) (store_tags args) /\
    incl (extractTags (arg_userMessage args)) (store_tags args) /\
    incl (extractTags (arg_assistantResponse args)) (store_tags args).
Proof.
  intros args H. unfold store_tags. rewrite H.
  split; [apply uniq_NoDup|].
  repeat split; intros tag Ht; apply uniq_In, in_or_app.
  - now left.
  - right. now apply extractTags_incl_l.
  - right. apply extractTags_incl_r. now apply extractTags_incl_r.
Qed.

Lemma store_handler_tags_witness :
  NoDup (store_tags (mkStoreArgs "s1" "Docker on AWS" "use docker compose"
                       None (Some ["docker"; "ops"]) None None None)) /\
  incl (default [] (Some ["docker"; "ops"]))
       (store_tags (mkStoreArgs "s1" "Docker on AWS" "use docker compose"
                      None (Some ["docker"; "ops"]) None None None)) /\
  incl (extractTags "Docker on AWS")
       (store_tags (mkStoreArgs "s1" "Docker on AWS" "use docker compose"
                      None (Some ["docker"; "ops"]) None None None)) /\
  incl (extractTags "use docker compose")
       (store_tags (mkStoreArgs "s1" "Docker on AWS" "use docker compose"
                      None (Some ["docker"; "ops"]) None None None)).
Proof.
  apply (@store_handler_tags
           (mkStoreArgs "s1" "Docker on AWS" "use docker compose"
              None (Some ["docker"; "ops"]) None None None)).
  reflexivity.
Defined.

(** X26.  The store handler does not pass the visibility it is given.
    With client and collection present, every record stored through it
    is sent to the vector service as a team record, a record asked to be
    private included, and the reply is the one of a stored memory. *)
Theorem store_handler_ignores_visibility :
  forall (now : Z) (mgr : Manager) (w : World) (args : StoreArgs),
    initialized mgr = true -> client mgr <> None -> collection mgr <> None ->
    fst (fst (handle_store now mgr w args)) =
      check_mark ++ " Memory stored for session '" ++ arg_sessionId args ++
      "' with " ++ count_text (store_tags args) ++ " tags and " ++
      count_text (store_context args) ++ " context items" /\
    exists md,
      Chroma.log (chroma (snd (handle_store now mgr w args))) =
        (Chroma.log (chroma w) ++
         [Chroma.Add (Chroma.mkItem (item_id (store_record now args))
                        (item_document (store_record now args)) md)])%list /\
      lookup "visibility" md = Some (Chroma.MStr "team").
Proof.
  intros now mgr w args Hi Hc Hk. unfold handle_store.
  pose proof (storeConversation_returns_true mgr w (store_record now args)) as T.
  pose proof (@storeConversation_indexes mgr w (store_record now args)
                Hi Hc Hk eq_refl) as L.
  destruct (storeConversation mgr w (store_record now args))
    as [[success mgr'] w'].
  cbn [fst snd] in *. rewrite T. split; [reflexivity|].
  eexists. split; [exact L | reflexivity].
Qed.

Lemma store_handler_ignores_visibility_witness :
  exists md,
    Chroma.log (chroma (snd (handle_store 1700000005000 (fst Sample.recovered)
                               (snd Sample.recovered)
                               (mkStoreArgs "s3" "my secret" "noted" None None
                                  None (Some "private") None)))) =
      (Chroma.log (chroma (snd Sample.recovered)) ++
       [Chroma.Add (Chroma.mkItem "s3_1700000005000"
                      (item_document
                         (store_record 1700000005000
                            (mkStoreArgs "s3" "my secret" "noted" None None
                               None (Some "private") None)))
                      md)])%list /\
    lookup "visibility" md = Some (Chroma.MStr "team").
Proof.
  apply (@store_handler_ignores_visibility 1700000005000
           (fst Sample.recovered) (snd Sample.recovered)
           (mkStoreArgs "s3" "my secret" "noted" None None None
              (Some "private") None)); (reflexivity || discriminate).
Defined.

(** X27.  The delete handler reports success whatever [deleteSession]
    returned: for a session that is listed, the reply says it was
    deleted, and the session is still listed afterwards.  The name of
    the active user and the name of the session file are single path
    components. *)
Theorem delete_handler_reports_success :
  forall (w : World) (sessionId : string),
    component (reader_userId w) = true ->
    component (session_file sessionId) = true ->
    In sessionId (listSessions w) ->
    fst (handle_delete w sessionId) =
      check_mark ++ " Session '" ++ sessionId ++ "' deleted successfully" /\
    In sessionId (listSessions (snd (handle_delete w sessionId))).
Proof.
  intros w sid HU HF H. unfold handle_delete.
  pose proof (deleteSession_keeps_listing w sid sid HU HF H) as K.
  destruct (deleteSession w sid) as [ok w']. auto.
Qed.

Lemma delete_handler_reports_success_witness :
  fst (handle_delete (snd Sample.alice_json) "s1") =
    check_mark ++ " Session '" ++ "s1" ++ "' deleted successfully" /\
  In "s1" (listSessions (snd (handle_delete (snd Sample.alice_json) "s1"))).
Proof.
  apply (@delete_handler_reports_success (snd Sample.alice_json) "s1").
  - reflexivity.
  - reflexivity.
  - simpl. auto.
Defined.

(** ** Session summary *)

(** X28.  Without a collection, [getSessionSummary] reads the session
    file directly under the memory directory, when its name is a single
    path component: unless a plain file of that name lies there, the
    summary is null, also for a session that is stored and listed in
    the directory of its user. *)
Theorem getSessionSummary_null_without_collection :
  forall (mgr : Manager) (w : World) (sessionId : string),
    collection mgr = None ->
    component (session_file sessionId) = true ->
    (forall t, lookup (session_file sessionId) (top (disk w)) <>
               Some (Plain t)) ->
    getSessionSummary mgr w sessionId = (NoSummary, w).
Proof.
  intros mgr w sid Hc _ Hf. unfold getSessionSummary. rewrite Hc.
  unfold summary_of_file, readFile_root.
  destruct (lookup (session_file sid) (top (disk w))) as [[t|es]|];
    try reflexivity.
  now destruct (Hf t).
Qed.

Lemma getSessionSummary_null_without_collection_witness :
  In "s1" (listSessions (snd Sample.alice_json)) /\
  getSessionSummary (fst Sample.alice_json) (snd Sample.alice_json) "s1" =
  (NoSummary, snd Sample.alice_json).
Proof.
  split; [simpl; auto|].
  apply (@getSessionSummary_null_without_collection (fst Sample.alice_json)
           (snd Sample.alice_json) "s1").
  - reflexivity.
  - reflexivity.
  - intros t. discriminate.
Defined.

(** X29.  A summary made of search results counts at most the ten
    results asked for, however long the session is, and shows the first
    three of them. *)
Theorem getSessionSummary_counts_at_most_ten :
  forall (mgr : Manager) (w w' : World) (sessionId sid : string)
         (count : Z) (recent : list MemorySearchResult),
    getSessionSummary mgr w sessionId = (FromSearch sid count recent, w') ->
    sid = sessionId /\ 1 <= count <= 10 /\
    recent = firstn 3 (snd (fst (searchRelevantMemories mgr w ""
                                   (Some sessionId) (Some 10)))) /\
    Z.of_nat (List.length recent) = Z.min count 3.
Proof.
  intros mgr w w' sessionId sid count recent. unfold getSessionSummary.
  pose proof (@searchRelevantMemories_length mgr w "" (Some sessionId)
                (Some 10) ltac:(simpl; lia)) as B.
  assert (J : forall d, summary_of_file d sessionId <>
                        FromSearch sid count recent).
  { intros d. unfold summary_of_file.
    destruct (readFile_root d (session_file sessionId)) as [[|[l|s|]]|];
      try discriminate.
    destruct (records_of l); discriminate. }
  destruct (collection mgr);
    [|intros [= H _]; now destruct (J (disk w))].
  destruct (searchRelevantMemories mgr w "" (Some sessionId) (Some 10))
    as [[p results] w1].
  cbn [fst snd default] in B.
  destruct results as [|r results];
    [intros [= H _]; now destruct (J (disk w1))|].
  intros [= <- <- <- _]. rewrite slice0_nonneg by lia.
  change (Z.to_nat 3) with 3%nat.
  split; [reflexivity|]. split.
  - cbn [List.length] in *. lia.
  - split; [reflexivity|]. rewrite length_firstn. cbn [List.length] in *. lia.
Qed.

Lemma getSessionSummary_counts_at_most_ten_witness :
  "s1" = "s1" /\ 1 <= 1 <= 10 /\
  [json_result (with_owner Sample.nginx "alice" "default-team" Team)] =
    firstn 3 (snd (fst (searchRelevantMemories (fst Sample.recovered)
                          (snd Sample.recovered) "" (Some "s1") (Some 10)))) /\
  Z.of_nat (List.length
              [json_result (with_owner Sample.nginx "alice" "default-team"
                              Team)]) = Z.min 1 3.
Proof.
  apply (@getSessionSummary_counts_at_most_ten (fst Sample.recovered)
           (snd Sample.recovered)
           (snd (getSessionSummary (fst Sample.recovered)
                   (snd Sample.recovered) "s1"))
           "s1" "s1" 1
           [json_result (with_owner Sample.nginx "alice" "default-team" Team)]).
  reflexivity.
Defined.

(** A run of the extraction: keywords in any case, white space after
    the colon, a comma that ends a reference, a keyword inside a longer
    word, and a repeated reference. *)
Example extractContext_run :
  extractContext
    "see File:  src/a.ts, path:b.txt file: , http://x.org/a,b profile:q file: src/a.ts" =
  ["file: src/a.ts"; "file: b.txt"; "file: q"; "url: http://x.org/a"].
Proof. reflexivity. Qed.
